(** * benchmark-ocr: retry executor, JSON recovery, model registry and usage
    records of the AWS Bedrock Mistral / Pixtral and Maritaca providers.

    The development is a shallow embedding of
      - src/models/awsBedrockMistral.ts, awsBedrockPixtral.ts, maritaca.ts
      - src/models/registry.ts
      - src/models/shared/tokenCost.ts
    followed by the properties proved about them. *)

From Stdlib Require Import ZArith NArith List String Ascii Bool Lia DecimalString.
From Corelib Require Import PrimFloat.
Import ListNotations.

Set Implicit Arguments.
Local Open Scope Z_scope.

(* ================================================================== *)
(** ** JavaScript values used by the providers *)
(* ================================================================== *)

Module JS.

(** A JavaScript string is a sequence of UTF-16 code units. *)
Definition jsstring := list N.

(** An ASCII literal as a JavaScript string. *)
Definition js (s : string) : jsstring :=
  List.map N_of_ascii (list_ascii_of_string s).

Definition lbrace : N := 123.   (* '{' *)
Definition rbrace : N := 125.   (* '}' *)
Definition newline : N := 10.   (* '\n' *)

(** [`${n}`] for an integral number. *)
Definition show (n : Z) : jsstring := js (NilZero.string_of_int (Z.to_int n)).

(** [!s] on a string: only the empty string is falsy. *)
Definition falsy (s : jsstring) : bool :=
  match s with [] => true | _ :: _ => false end.

Fixpoint str_eqb (a b : jsstring) : bool :=
  match a, b with
  | [], [] => true
  | x :: a', y :: b' => N.eqb x y && str_eqb a' b'
  | _, _ => false
  end.

(** [$metadata] of an AWS SDK exception. *)
Record Metadata := { httpStatusCode : option Z }.

(** A thrown value: an [Error] object, possibly an SDK exception. *)
Record Error := {
  name : jsstring;
  message : jsstring;
  metadata : option Metadata   (* error.$metadata *)
}.

(** [new Error(msg)] *)
Definition newError (msg : jsstring) : Error :=
  {| name := js "Error"; message := msg; metadata := None |}.

(** Completion of an awaited computation. *)
Inductive outcome (A : Type) :=
| Return (v : A)
| Throw (e : Error).
Arguments Return {A} v.
Arguments Throw {A} e.

End JS.
Import JS.

(* ================================================================== *)
(** ** The retry executor (executeWithRetry) *)
(* ================================================================== *)

(** What an execution does to the outside, in order. [EvInvoke] marks one
    call of the wrapped operation (one attempt) and carries what the
    operation itself did during that call. *)
#[local] Unset Elimination Schemes.
Inductive event :=
| EvLog (line : jsstring)          (* console.log *)
| EvWarn (line : jsstring)         (* console.warn *)
| EvSleep (ms : Z)                 (* await this.sleep(ms) *)
| EvInvoke (inner : list event).   (* await operation() *)
#[local] Set Elimination Schemes.

Definition sleeps_of (tr : list event) : list Z :=
  flat_map (fun e => match e with EvSleep ms => [ms] | _ => [] end) tr.

Definition attempts_of (tr : list event) : nat :=
  List.length (List.filter (fun e => match e with EvInvoke _ => true | _ => false end) tr).

(** The sleeps and the calls of an execution, in the order they happened. *)
Inductive step :=
| Slept (ms : Z)
| Called.

Definition steps_of (tr : list event) : list step :=
  flat_map (fun e => match e with
                     | EvSleep ms => [Slept ms]
                     | EvInvoke _ => [Called]
                     | _ => []
                     end) tr.

Section Effects.

(** [W] is the state of whatever the wrapped operation talks to. *)
Variable W : Type.

(** An async computation: from a state of the outside to a completion,
    the next state and the events emitted meanwhile. *)
Definition M (A : Type) : Type := W -> outcome A * W * list event.

Definition ret {A} (v : A) : M A := fun w => (Return v, w, []).

Definition throw {A} (e : Error) : M A := fun w => (Throw e, w, []).

Definition bind {A B} (m : M A) (k : A -> M B) : M B :=
  fun w =>
    match m w with
    | (Return v, w1, t1) =>
        match k v w1 with (r, w2, t2) => (r, w2, t1 ++ t2) end
    | (Throw e, w1, t1) => (Throw e, w1, t1)
    end.

(** [try { m } catch (error) { h error }] *)
Definition try_catch {A} (m : M A) (h : Error -> M A) : M A :=
  fun w =>
    match m w with
    | (Return v, w1, t1) => (Return v, w1, t1)
    | (Throw e, w1, t1) =>
        match h e w1 with (r, w2, t2) => (r, w2, t1 ++ t2) end
    end.

Definition emit (e : event) : M unit := fun w => (Return tt, w, [e]).

Definition console_log (line : jsstring) : M unit := emit (EvLog line).
Definition console_warn (line : jsstring) : M unit := emit (EvWarn line).
Definition sleep (ms : Z) : M unit := emit (EvSleep ms).

Definition when (b : bool) (m : M unit) : M unit := if b then m else ret tt.

(** A zero-argument fallible action, [() => Promise<T>]. *)
Definition operation (T : Type) : Type := M T.

(** [await operation()] *)
Definition invoke {T} (op : operation T) : M T :=
  fun w => match op w with (r, w1, t) => (r, w1, [EvInvoke t]) end.

(** A synchronous call that returns or throws without touching the outside. *)
Definition lift {A} (r : outcome A) : M A := fun w => (r, w, []).

End Effects.

Arguments ret {W A} v.
Arguments throw {W A} e.
Arguments lift {W A} r.
Arguments emit {W} e.
Arguments console_log {W} line.
Arguments console_warn {W} line.
Arguments sleep {W} ms.

Notation "x <- m ;; k" := (bind m (fun x => k))
  (at level 61, m at next level, right associativity).
Notation "m ;;; k" := (bind m (fun _ => k))
  (at level 61, right associativity).

Module Retry.
Section Executor.

Variable W : Type.

(** The three module constants of a provider file. *)
Variable MAX_RETRIES : nat.
Variable BASE_DELAY : Z.
Variable MAX_DELAY : Z.

(** [error.name === 'ThrottlingException' ||
     error.$metadata?.httpStatusCode === 429] *)
Definition isThrottling (error : Error) : bool :=
  str_eqb (name error) (js "ThrottlingException")
  || match metadata error with
     | Some md => match httpStatusCode md with
                  | Some c => c =? 429
                  | None => false
                  end
     | None => false
     end.

(** [Math.min(BASE_DELAY * Math.pow(2, attempt - 1), MAX_DELAY)]. The
    source evaluates it for [attempt >= 1] only, where the power is a
    whole number. *)
Definition backoff (attempt : nat) : Z :=
  Z.min (BASE_DELAY * 2 ^ (Z.of_nat attempt - 1)) MAX_DELAY.

Definition retry_line (operationName : jsstring) (attempt : nat) (delay : Z)
  : jsstring :=
  [9203%N] ++ js " " ++ operationName ++ js ": Retry attempt "
    ++ show (Z.of_nat attempt) ++ js "/" ++ show (Z.of_nat MAX_RETRIES)
    ++ js " after " ++ show delay ++ js "ms delay...".

Definition throttled_line (operationName : jsstring) (attempt : nat)
  : jsstring :=
  [55357%N; 57003%N] ++ js " " ++ operationName
    ++ js ": Throttled, will retry (attempt "
    ++ show (Z.of_nat attempt + 1) ++ js "/"
    ++ show (Z.of_nat MAX_RETRIES + 1) ++ js ")".

(** The message of the error thrown after the loop. *)
Definition exhausted_message (operationName : jsstring) (lastMessage : jsstring)
  : jsstring :=
  operationName ++ js " failed after " ++ show (Z.of_nat MAX_RETRIES + 1)
    ++ js " attempts. Last error: " ++ lastMessage.

(** Reading [lastError.message] while [lastError] is still unassigned. *)
Definition unassigned_lastError : Error :=
  {| name := js "TypeError";
     message := js "Cannot read properties of undefined (reading 'message')";
     metadata := None |}.

Section Loop.

Variable T : Type.
Variable op : operation W T.
Variable operationName : jsstring.

(** [for (let attempt = 0; attempt <= MAX_RETRIES; attempt++) { ... }]
    followed by the final [throw]. [remaining] is the number of values
    of [attempt] still to be visited, [MAX_RETRIES + 1 - attempt]; the
    loop condition fails exactly when it reaches zero. *)
Fixpoint retry_loop (remaining attempt : nat) (lastError : option Error)
  : M W T :=
  match remaining with
  | O =>
      match lastError with
      | Some e => throw (newError (exhausted_message operationName (message e)))
      | None => throw unassigned_lastError
      end
  | S remaining' =>
      try_catch
        (when (0 <? attempt)%nat
           (let delay := backoff attempt in
            console_log (retry_line operationName attempt delay) ;;;
            sleep delay) ;;;
         invoke op)
        (fun error =>
           (* lastError = error *)
           if isThrottling error then
             when (attempt <? MAX_RETRIES)%nat
               (console_log (throttled_line operationName attempt)) ;;;
             (* continue, or fall out of the catch block: attempt++ *)
             retry_loop remaining' (S attempt) (Some error)
           else
             throw error)
  end.

Definition executeWithRetry : M W T :=
  retry_loop (S MAX_RETRIES) 0 None.

End Loop.

(** What one iteration emits before it calls the operation. *)
Definition prologue (operationName : jsstring) (attempt : nat) : list event :=
  if (0 <? attempt)%nat
  then [EvLog (retry_line operationName attempt (backoff attempt));
        EvSleep (backoff attempt)]
  else [].

(** What the catch block emits before the next iteration. *)
Definition epilogue (operationName : jsstring) (attempt : nat) : list event :=
  if (attempt <? MAX_RETRIES)%nat
  then [EvLog (throttled_line operationName attempt)]
  else [].

(** The sleeps of the iterations [attempt], ..., [attempt + n - 1]. *)
Definition schedule (attempt n : nat) : list Z :=
  flat_map (fun a => if (0 <? a)%nat then [backoff a] else []) (seq attempt n).

(** The sleeps and calls of the iterations [attempt], ...,
    [attempt + n - 1], in order. *)
Definition retry_steps (attempt n : nat) : list step :=
  flat_map (fun a => (if (0 <? a)%nat then [Slept (backoff a)] else []) ++ [Called])
    (seq attempt n).

(** The state of the outside after [n] calls of [op] starting in [w]. *)
Fixpoint after_calls {T} (op : operation W T) (n : nat) (w : W) : W :=
  match n with
  | O => w
  | S n' => after_calls op n' (snd (fst (op w)))
  end.

(** The completion of the call number [n] (counting from 0). *)
Definition nth_completion {T} (op : operation W T) (n : nat) (w : W)
  : outcome T :=
  fst (fst (op (after_calls op n w))).

(** The completion is a throw of a throttling error. *)
Definition fails_transiently {T} (r : outcome T) : Prop :=
  match r with
  | Return _ => False
  | Throw e => isThrottling e = true
  end.

End Executor.
End Retry.


(* ================================================================== *)
(** ** String primitives used by the JSON recovery *)
(* ================================================================== *)

Module Str.

(** [s.indexOf(c)] for a one-character [c], scanning [s] whose first
    element has index [i]; [-1] when absent. *)
Fixpoint indexOf_from (c : N) (s : jsstring) (i : Z) : Z :=
  match s with
  | [] => -1
  | x :: s' => if N.eqb x c then i else indexOf_from c s' (i + 1)
  end.

Definition indexOf (c : N) (s : jsstring) : Z := indexOf_from c s 0.

(** [s.lastIndexOf(c)]: the last index seen so far is carried along. *)
Fixpoint lastIndexOf_from (c : N) (s : jsstring) (i : Z) (found : Z) : Z :=
  match s with
  | [] => found
  | x :: s' => lastIndexOf_from c s' (i + 1) (if N.eqb x c then i else found)
  end.

Definition lastIndexOf (c : N) (s : jsstring) : Z := lastIndexOf_from c s 0 (-1).

Definition length (s : jsstring) : Z := Z.of_nat (List.length s).

(** [s.substring(a, b)]: both bounds are clamped to [0, s.length] and
    swapped when out of order. *)
Definition substring (s : jsstring) (a b : Z) : jsstring :=
  let clamp x := Z.min (Z.max x 0) (length s) in
  let lo := Z.min (clamp a) (clamp b) in
  let hi := Z.max (clamp a) (clamp b) in
  firstn (Z.to_nat (hi - lo)) (skipn (Z.to_nat lo) s).

(** [s.includes(c)] for a one-character [c]. *)
Definition includes (c : N) (s : jsstring) : bool := existsb (N.eqb c) s.

(** [s.startsWith(c)] for a one-character [c]. *)
Definition startsWith (c : N) (s : jsstring) : bool :=
  match s with
  | x :: _ => N.eqb x c
  | [] => false
  end.

(** [s.split('\n')]: never empty, the last piece may be the empty string. *)
Fixpoint split_lines (s : jsstring) : list jsstring :=
  match s with
  | [] => [[]]
  | x :: s' =>
      if N.eqb x newline then [] :: split_lines s'
      else match split_lines s' with
           | line :: rest => (x :: line) :: rest
           | [] => [[x]]
           end
  end.

(** White space and line terminators of ECMAScript, as removed by [trim]. *)
Definition isWhiteSpace (c : N) : bool :=
  (N.eqb c 9 || N.eqb c 10 || N.eqb c 11 || N.eqb c 12 || N.eqb c 13
   || N.eqb c 32 || N.eqb c 160 || N.eqb c 5760
   || (N.leb 8192 c && N.leb c 8202)
   || N.eqb c 8232 || N.eqb c 8233 || N.eqb c 8239 || N.eqb c 8287
   || N.eqb c 12288 || N.eqb c 65279)%bool.

Fixpoint trimStart (s : jsstring) : jsstring :=
  match s with
  | x :: s' => if isWhiteSpace x then trimStart s' else s
  | [] => []
  end.

Definition trimEnd (s : jsstring) : jsstring := rev (trimStart (rev s)).

(** [s.trim()] *)
Definition trim (s : jsstring) : jsstring := trimEnd (trimStart s).

(** *** The two regular expressions

    Both have the shape [\{ C* \}] for a character class [C]: [[\s\S]]
    (any code unit) in the Mistral provider and [[^}]] in the Pixtral one.
    The matcher is the backtracking one of ECMAScript: the star is greedy
    and gives characters back one at a time, and [match] reports the
    leftmost starting position that succeeds. *)

Definition anyChar (c : N) : bool := true.            (* [\s\S] *)
Definition notRbrace (c : N) : bool := negb (N.eqb c rbrace).   (* [^}] *)

(** [C* \}] anchored at the head of [s]: the number of code units matched. *)
Fixpoint star_then_rbrace (C : N -> bool) (s : jsstring) : option nat :=
  match s with
  | [] => None
  | x :: s' =>
      match (if C x then star_then_rbrace C s' else None) with
      | Some n => Some (S n)
      | None => if N.eqb x rbrace then Some 1%nat else None
      end
  end.

(** [\{ C* \}] anchored at the head of [s]. *)
Definition match_here (C : N -> bool) (s : jsstring) : option nat :=
  match s with
  | x :: s' =>
      if N.eqb x lbrace then option_map S (star_then_rbrace C s') else None
  | [] => None
  end.

(** [s.match(/\{ C* \}/)]: [Some m] with [m] the matched text (element 0 of
    the match array), [None] for [null]. *)
Fixpoint regex_match (C : N -> bool) (s : jsstring) : option jsstring :=
  match match_here C s with
  | Some n => Some (firstn n s)
  | None =>
      match s with
      | [] => None
      | _ :: s' => regex_match C s'
      end
  end.

End Str.


(* ================================================================== *)
(** ** Token costs (shared/tokenCost.ts) and usage records *)
(* ================================================================== *)

Module TokenCost.

Local Open Scope float_scope.
#[local] Set Warnings "-inexact-float".

(** Price per million tokens. *)
Record ModelInfo := { input : float; output : float }.

Inductive CostType := Input | Output.

Definition TOKEN_COST : list (jsstring * ModelInfo) := [
  (js "azure-gpt-4o", {| input := 2.5; output := 10 |});
  (js "azure-gpt-4o-mini", {| input := 0.15; output := 0.6 |});
  (js "azure-gpt-4.1", {| input := 2; output := 8 |});
  (js "azure-gpt-4.1-mini", {| input := 0.4; output := 1.6 |});
  (js "azure-gpt-4.1-nano", {| input := 0.1; output := 0.4 |});
  (js "azure-o1", {| input := 15; output := 60 |});
  (js "azure-o1-mini", {| input := 1.1; output := 4.4 |});
  (js "azure-o3-mini", {| input := 1.1; output := 4.4 |});
  (js "claude-3-5-sonnet-20241022", {| input := 3; output := 15 |});
  (js "claude-3-7-sonnet-20250219", {| input := 3; output := 15 |});
  (js "claude-sonnet-4-20250514", {| input := 3; output := 15 |});
  (js "deepseek-chat", {| input := 0.14; output := 0.28 |});
  (js "gemini-1.5-pro", {| input := 1.25; output := 5 |});
  (js "gemini-1.5-flash", {| input := 0.075; output := 0.3 |});
  (js "gemini-2.0-flash-001", {| input := 0.1; output := 0.4 |});
  (js "gemini-2.5-pro-exp-03-25", {| input := 1.25; output := 10 |});
  (js "gemini-2.5-pro-preview-03-25", {| input := 1.25; output := 10 |});
  (js "gemini-2.5-pro-preview-05-06", {| input := 1.25; output := 10 |});
  (js "gemini-2.5-flash-preview-04-17", {| input := 0.15; output := 0.6 |});
  (js "gpt-4o", {| input := 2.5; output := 10 |});
  (js "gpt-4o-2024-11-20", {| input := 2.5; output := 10 |});
  (js "gpt-4o-mini", {| input := 0.15; output := 0.6 |});
  (js "gpt-4.1", {| input := 2; output := 8 |});
  (js "gpt-4.1-mini", {| input := 0.4; output := 1.6 |});
  (js "gpt-4.1-nano", {| input := 0.1; output := 0.4 |});
  (js "o1", {| input := 15; output := 60 |});
  (js "o1-mini", {| input := 1.1; output := 4.4 |});
  (js "o3-mini", {| input := 1.1; output := 4.4 |});
  (js "o4-mini", {| input := 1.1; output := 4.4 |});
  (js "chatgpt-4o-latest", {| input := 2.5; output := 10 |});
  (js "zerox", {| input := 2.5; output := 10 |});
  (js "qwen2.5-vl-32b-instruct", {| input := 0; output := 0 |});
  (js "qwen2.5-vl-72b-instruct", {| input := 0; output := 0 |});
  (js "google/gemma-3-27b-it", {| input := 0.1; output := 0.2 |});
  (js "deepseek/deepseek-chat-v3-0324", {| input := 0.27; output := 1.1 |});
  (js "meta-llama/llama-3.2-11b-vision-instruct", {| input := 0.055; output := 0.055 |});
  (js "meta-llama/llama-3.2-90b-vision-instruct", {| input := 0.8; output := 1.6 |});
  (js "meta-llama/Llama-3.2-11B-Vision-Instruct-Turbo", {| input := 0.18; output := 0.18 |});
  (js "meta-llama/Llama-3.2-90B-Vision-Instruct-Turbo", {| input := 1.2; output := 1.2 |});
  (js "meta-llama/Llama-4-Scout-17B-16E-Instruct", {| input := 0.18; output := 0.59 |});
  (js "meta-llama/Llama-4-Maverick-17B-128E-Instruct-FP8", {| input := 0.27; output := 0.85 |});
  (js "sabia-3", {| input := 0.89; output := 1.77 |});
  (js "sabia-3.1", {| input := 0.89; output := 1.77 |});
  (js "sabiazinho-3", {| input := 0.18; output := 0.53 |});
  (js "aaditya/OpenBioLLM-Llama3-70B", {| input := 0.18; output := 0.18 |});
  (js "aaditya/OpenBioLLM-Llama3-70B-Instruct", {| input := 0.18; output := 0.18 |});
  (js "us.meta.llama4-maverick-17b-instruct-v1:0", {| input := 0.1; output := 0.2 |});
  (js "mistral.mixtral-8x7b-instruct-v0:1", {| input := 0.7; output := 2.4 |});
  (js "pixtral-12b-v1", {| input := 0.1; output := 0.2 |});
  (js "pixtral-12b-instruct-v1", {| input := 0.1; output := 0.2 |})
].

(** Property names every object literal inherits from [Object.prototype]:
    looking one of them up finds a truthy value without [input] or
    [output]. *)
Definition inherited_keys : list jsstring :=
  List.map js
    ["constructor"; "toString"; "toLocaleString"; "valueOf"; "hasOwnProperty";
     "isPrototypeOf"; "propertyIsEnumerable"; "__proto__"; "__defineGetter__";
     "__defineSetter__"; "__lookupGetter__"; "__lookupSetter__"]%string.

(** Own-property lookup in an object literal written as a list of entries:
    of two entries with the same key the later one counts. *)
Fixpoint lookup {A} (k : jsstring) (entries : list (jsstring * A)) : option A :=
  match entries with
  | [] => None
  | (k', v) :: rest =>
      match lookup k rest with
      | Some v' => Some v'
      | None => if str_eqb k k' then Some v else None
      end
  end.

Section Cost.

(** The exported array [FINETUNED_MODELS] of registry.ts. *)
Variable FINETUNED_MODELS : list jsstring.

(** [Object.fromEntries(FINETUNED_MODELS.map((el) => [el, {...}]))] *)
Definition fineTuneCost : list (jsstring * ModelInfo) :=
  List.map (fun el => (el, {| input := 3.75; output := 15.0 |})) FINETUNED_MODELS.

(** [{ ...TOKEN_COST, ...fineTuneCost }] *)
Definition combinedCost : list (jsstring * ModelInfo) :=
  TOKEN_COST ++ fineTuneCost.

Definition unsupported (model : jsstring) : Error :=
  newError (js "Model '" ++ model ++ js "' is not supported.").

Definition calculateTokenCost (model : jsstring) (type : CostType) (tokens : float)
  : outcome float :=
  match lookup model combinedCost with
  | Some modelInfo =>
      Return ((match type with Input => input modelInfo | Output => output modelInfo end
               * tokens) / 1000000)
  | None =>
      if existsb (str_eqb model) inherited_keys
      then Return nan               (* undefined * tokens / 1_000_000 *)
      else Throw (unsupported model)
  end.

End Cost.

End TokenCost.

(** The [Usage] record of types.ts as the providers fill it. *)
Record Usage := {
  duration : float;
  inputTokens : float;
  outputTokens : float;
  totalTokens : float;
  inputCost : float;
  outputCost : float;
  totalCost : float
}.

(* ================================================================== *)
(** ** What the providers call outside this repository *)
(* ================================================================== *)

(** What a provider reads from a Bedrock Converse reply. *)
Record BedrockResponse := {
  output_text : option jsstring;        (* output?.message?.content?.[0]?.text *)
  usage_inputTokens : option float;     (* usage?.inputTokens *)
  usage_outputTokens : option float     (* usage?.outputTokens *)
}.

(** What the Maritaca provider reads from a chat completion: the content
    of each choice's message, and the token counts. *)
Record ChatCompletion := {
  choices : list (option jsstring);     (* choices[i].message.content *)
  prompt_tokens : option float;         (* usage?.prompt_tokens *)
  completion_tokens : option float      (* usage?.completion_tokens *)
}.

(** What a request is made of. The wording of the prompt, the image
    format tag and the inference parameters are fixed by these. *)
Record Request (Schema : Type) := {
  req_model : jsstring;
  req_text : option jsstring;
  req_schema : option Schema;
  req_image : option (list N)
}.

(** The SDK clients, the clock and the JSON parser, over a state [W] of
    the outside. *)
Record Platform (W Json Schema : Type) := {
  JSON_parse : jsstring -> outcome Json;
  performance_now : M W float;
  client_send : Request Schema -> M W BedrockResponse;
  fetch_arrayBuffer : jsstring -> M W (list N);
  chat_completions_create : jsstring -> jsstring -> M W ChatCompletion
}.

(** [x || ''] *)
Definition or_empty (x : option jsstring) : jsstring :=
  match x with
  | Some t => t
  | None => []
  end.

(** [x || 0]: zero, negative zero, NaN and undefined are falsy. *)
Definition or_zero (x : option float) : float :=
  match x with
  | Some v => if (PrimFloat.eqb v 0 || negb (PrimFloat.eqb v v))%bool then 0%float else v
  | None => 0%float
  end.

(** The [usage] object every provider builds from the two token counts
    and the two costs. *)
Definition mkUsage (start end_ tokensIn tokensOut costIn costOut : float) : Usage :=
  {| duration := PrimFloat.sub end_ start;
     inputTokens := tokensIn;
     outputTokens := tokensOut;
     totalTokens := PrimFloat.add tokensIn tokensOut;
     inputCost := costIn;
     outputCost := costOut;
     totalCost := PrimFloat.add costIn costOut |}.

Record OcrResult := { ocr_text : jsstring; ocr_usage : Usage }.

Record ExtractionResult (Json : Type) := { json : Json; usage : Usage }.

(* ================================================================== *)
(** ** AWSBedrockMistralProvider (awsBedrockMistral.ts) *)
(* ================================================================== *)

Module Mistral.

Definition MAX_RETRIES : nat := 5.
Definition BASE_DELAY : Z := 1000.
Definition MAX_DELAY : Z := 30000.

Record AWSBedrockMistralProvider := { model : jsstring; modelId : jsstring }.

(** Strategy 1: between the first [{] and the last [}]. *)
Definition strategy1 (responseText : jsstring) : jsstring :=
  let firstBrace := Str.indexOf lbrace responseText in
  let lastBrace := Str.lastIndexOf rbrace responseText in
  if (negb (firstBrace =? -1) && negb (lastBrace =? -1) && (lastBrace >? firstBrace))%bool
  then Str.substring responseText firstBrace (lastBrace + 1)
  else [].

(** The loop of strategy 2 over the code units from index [i] on;
    returns [startIndex] and [endIndex]. *)
Fixpoint balanced_scan (s : jsstring) (i braceCount startIndex : Z) : Z * Z :=
  match s with
  | [] => (startIndex, -1)
  | x :: s' =>
      if N.eqb x lbrace then
        let startIndex := if braceCount =? 0 then i else startIndex in
        balanced_scan s' (i + 1) (braceCount + 1) startIndex
      else if N.eqb x rbrace then
        let braceCount := braceCount - 1 in
        if ((braceCount =? 0) && negb (startIndex =? -1))%bool
        then (startIndex, i)                               (* break *)
        else balanced_scan s' (i + 1) braceCount startIndex
      else balanced_scan s' (i + 1) braceCount startIndex
  end.

(** Strategy 2: balanced braces. *)
Definition strategy2 (responseText : jsstring) : jsstring :=
  let '(startIndex, endIndex) := balanced_scan responseText 0 0 (-1) in
  if (negb (startIndex =? -1) && negb (endIndex =? -1))%bool
  then Str.substring responseText startIndex (endIndex + 1)
  else [].

(** Strategy 3: [responseText.match(/\{[\s\S]*\}/)]. *)
Definition strategy3 (responseText : jsstring) : jsstring :=
  match Str.regex_match Str.anyChar responseText with
  | Some jsonMatch => jsonMatch
  | None => []
  end.

(** The value of [jsonString] when [JSON.parse] is reached. *)
Definition recoverJson (responseText : jsstring) : jsstring :=
  let jsonString := strategy1 responseText in
  let jsonString := if falsy jsonString then strategy2 responseText else jsonString in
  let jsonString := if falsy jsonString then strategy3 responseText else jsonString in
  jsonString.

Definition no_json_found : Error :=
  newError (js "No valid JSON object found in response").

Definition invalid_json (parseError : Error) : Error :=
  newError (js "Invalid JSON response: " ++ message parseError).

Definition unsupported_image : Error :=
  newError (js "Mistral Mixtral-8x7b-instruct-v0:1 does not support direct image processing. Use extractFromText instead with pre-processed OCR text.").

Section Provider.

Variables W Json Schema : Type.
Variable P : Platform W Json Schema.
Variable FINETUNED_MODELS : list jsstring.

Definition executeWithRetry {T} (op : operation W T) (operationName : jsstring)
  : M W T :=
  Retry.executeWithRetry MAX_RETRIES BASE_DELAY MAX_DELAY op operationName.

(** The [try { ... } catch (parseError) { ... }] around the recovery. *)
Definition parseJson (responseText : jsstring) : M W Json :=
  try_catch
    (let jsonString := recoverJson responseText in
     if falsy jsonString then throw no_json_found
     else lift (JSON_parse P jsonString))
    (fun parseError =>
       console_warn (js "Failed to parse JSON from Mistral response: " ++ responseText) ;;;
       throw (invalid_json parseError)).

Definition ocr (this : AWSBedrockMistralProvider) (imagePath : jsstring)
  : M W OcrResult :=
  throw unsupported_image.

(** The arrow function handed to [executeWithRetry] by [extractFromText]. *)
Definition extractFromText_operation (this : AWSBedrockMistralProvider)
  (text : jsstring) (schema : Schema) : operation W (ExtractionResult Json) :=
  start <- performance_now P ;;
  bedrockResponse <- client_send P
    {| req_model := modelId this; req_text := Some text;
       req_schema := Some schema; req_image := None |} ;;
  end_ <- performance_now P ;;
  let responseText := or_empty (output_text bedrockResponse) in
  json <- parseJson responseText ;;
  let estimatedInputTokens := or_zero (usage_inputTokens bedrockResponse) in
  let estimatedOutputTokens := or_zero (usage_outputTokens bedrockResponse) in
  inputCost <- lift (TokenCost.calculateTokenCost FINETUNED_MODELS (model this)
                       TokenCost.Input estimatedInputTokens) ;;
  outputCost <- lift (TokenCost.calculateTokenCost FINETUNED_MODELS (model this)
                        TokenCost.Output estimatedOutputTokens) ;;
  ret {| json := json;
         usage := mkUsage start end_ estimatedInputTokens estimatedOutputTokens
                    inputCost outputCost |}.

Definition extractFromText (this : AWSBedrockMistralProvider)
  (text : jsstring) (schema : Schema) : M W (ExtractionResult Json) :=
  executeWithRetry (extractFromText_operation this text schema) (js "Text Extraction").

Definition extractFromImage (this : AWSBedrockMistralProvider)
  (imagePath : jsstring) (schema : Schema) : M W (ExtractionResult Json) :=
  throw unsupported_image.

End Provider.

End Mistral.

(* ================================================================== *)
(** ** AWSBedrockPixtralProvider (awsBedrockPixtral.ts) *)
(* ================================================================== *)

Module Pixtral.

Definition MAX_RETRIES : nat := 5.
Definition BASE_DELAY : Z := 2000.
Definition MAX_DELAY : Z := 60000.

Record AWSBedrockPixtralProvider := { model : jsstring; inferenceProfileId : jsstring }.

(** The loop of strategy 1 over the code units from index [i] on;
    returns [braceCount] and [endIndex]. *)
Fixpoint depth_scan (s : jsstring) (i braceCount endIndex : Z) : Z * Z :=
  match s with
  | [] => (braceCount, endIndex)
  | x :: s' =>
      if N.eqb x lbrace then depth_scan s' (i + 1) (braceCount + 1) endIndex
      else if N.eqb x rbrace then
        let braceCount := braceCount - 1 in
        if braceCount =? 0
        then (braceCount, i)                               (* break *)
        else depth_scan s' (i + 1) braceCount endIndex
      else depth_scan s' (i + 1) braceCount endIndex
  end.

(** Strategy 1: from the first [{] to the [}] that closes it. *)
Definition strategy1 (responseText : jsstring) : jsstring :=
  let firstBrace := Str.indexOf lbrace responseText in
  if negb (firstBrace =? -1) then
    let '(braceCount, endIndex) :=
      depth_scan (skipn (Z.to_nat firstBrace) responseText) firstBrace 0 firstBrace in
    if braceCount =? 0
    then Str.substring responseText firstBrace (endIndex + 1)
    else []
  else [].

(** Strategy 2: [responseText.match(/\{[^}]*\}/)]. *)
Definition strategy2 (responseText : jsstring) : jsstring :=
  match Str.regex_match Str.notRbrace responseText with
  | Some jsonMatch => jsonMatch
  | None => []
  end.

(** The loop of strategy 3 over the lines. *)
Fixpoint first_object_line (lines : list jsstring) : jsstring :=
  match lines with
  | [] => []
  | line :: rest =>
      let trimmed := Str.trim line in
      if (Str.startsWith lbrace trimmed && Str.includes rbrace trimmed)%bool
      then trimmed                                         (* break *)
      else first_object_line rest
  end.

(** Strategy 3: the first line that looks like an object. *)
Definition strategy3 (responseText : jsstring) : jsstring :=
  first_object_line (Str.split_lines responseText).

(** The value of [jsonString] when [JSON.parse] is reached. *)
Definition recoverJson (responseText : jsstring) : jsstring :=
  let jsonString := strategy1 responseText in
  let jsonString := if falsy jsonString then strategy2 responseText else jsonString in
  let jsonString := if falsy jsonString then strategy3 responseText else jsonString in
  jsonString.

Definition no_json_found : Error :=
  newError (js "No valid JSON object found in response").

Definition invalid_json (parseError : Error) : Error :=
  newError (js "Invalid JSON response: " ++ message parseError).

Section Provider.

Variables W Json Schema : Type.
Variable P : Platform W Json Schema.
Variable FINETUNED_MODELS : list jsstring.

Definition executeWithRetry {T} (op : operation W T) (operationName : jsstring)
  : M W T :=
  Retry.executeWithRetry MAX_RETRIES BASE_DELAY MAX_DELAY op operationName.

Definition parseJson (responseText : jsstring) : M W Json :=
  try_catch
    (let jsonString := recoverJson responseText in
     if falsy jsonString then throw no_json_found
     else lift (JSON_parse P jsonString))
    (fun parseError =>
       console_warn (js "Failed to parse JSON from Pixtral response: " ++ responseText) ;;;
       throw (invalid_json parseError)).

(** The usage part shared by the three operations. *)
Definition usageOf (this : AWSBedrockPixtralProvider) (start end_ : float)
  (bedrockResponse : BedrockResponse) : M W Usage :=
  let estimatedInputTokens := or_zero (usage_inputTokens bedrockResponse) in
  let estimatedOutputTokens := or_zero (usage_outputTokens bedrockResponse) in
  inputCost <- lift (TokenCost.calculateTokenCost FINETUNED_MODELS (model this)
                       TokenCost.Input estimatedInputTokens) ;;
  outputCost <- lift (TokenCost.calculateTokenCost FINETUNED_MODELS (model this)
                        TokenCost.Output estimatedOutputTokens) ;;
  ret (mkUsage start end_ estimatedInputTokens estimatedOutputTokens
         inputCost outputCost).

Definition ocr_operation (this : AWSBedrockPixtralProvider) (imagePath : jsstring)
  : operation W OcrResult :=
  imageBytes <- fetch_arrayBuffer P imagePath ;;
  start <- performance_now P ;;
  bedrockResponse <- client_send P
    {| req_model := inferenceProfileId this; req_text := None;
       req_schema := None; req_image := Some imageBytes |} ;;
  end_ <- performance_now P ;;
  let text := or_empty (output_text bedrockResponse) in
  u <- usageOf this start end_ bedrockResponse ;;
  ret {| ocr_text := text; ocr_usage := u |}.

Definition ocr (this : AWSBedrockPixtralProvider) (imagePath : jsstring)
  : M W OcrResult :=
  executeWithRetry (ocr_operation this imagePath) (js "OCR").

Definition extractFromText_operation (this : AWSBedrockPixtralProvider)
  (text : jsstring) (schema : Schema) : operation W (ExtractionResult Json) :=
  start <- performance_now P ;;
  bedrockResponse <- client_send P
    {| req_model := inferenceProfileId this; req_text := Some text;
       req_schema := Some schema; req_image := None |} ;;
  end_ <- performance_now P ;;
  let responseText := or_empty (output_text bedrockResponse) in
  json <- parseJson responseText ;;
  u <- usageOf this start end_ bedrockResponse ;;
  ret {| json := json; usage := u |}.

Definition extractFromText (this : AWSBedrockPixtralProvider)
  (text : jsstring) (schema : Schema) : M W (ExtractionResult Json) :=
  executeWithRetry (extractFromText_operation this text schema) (js "Text Extraction").

Definition extractFromImage_operation (this : AWSBedrockPixtralProvider)
  (imagePath : jsstring) (schema : Schema) : operation W (ExtractionResult Json) :=
  imageBytes <- fetch_arrayBuffer P imagePath ;;
  start <- performance_now P ;;
  bedrockResponse <- client_send P
    {| req_model := inferenceProfileId this; req_text := None;
       req_schema := Some schema; req_image := Some imageBytes |} ;;
  end_ <- performance_now P ;;
  let responseText := or_empty (output_text bedrockResponse) in
  json <- parseJson responseText ;;
  u <- usageOf this start end_ bedrockResponse ;;
  ret {| json := json; usage := u |}.

Definition extractFromImage (this : AWSBedrockPixtralProvider)
  (imagePath : jsstring) (schema : Schema) : M W (ExtractionResult Json) :=
  executeWithRetry (extractFromImage_operation this imagePath schema)
    (js "Image Extraction").

End Provider.

End Pixtral.

(* ================================================================== *)
(** ** MaritacaProvider (maritaca.ts) *)
(* ================================================================== *)

Module Maritaca.

Record MaritacaProvider := { model : jsstring }.

(** Reading [.message] of [response.choices[0]] when there is no choice. *)
Definition no_choice : Error :=
  {| name := js "TypeError";
     message := js "Cannot read properties of undefined (reading 'message')";
     metadata := None |}.

Section Provider.

Variables W Json Schema : Type.
Variable P : Platform W Json Schema.
Variable FINETUNED_MODELS : list jsstring.

Definition ocr (this : MaritacaProvider) (imagePath : jsstring) : M W OcrResult :=
  start <- performance_now P ;;
  response <- chat_completions_create P (model this) imagePath ;;
  end_ <- performance_now P ;;
  let inputTokens := or_zero (prompt_tokens response) in
  let outputTokens := or_zero (completion_tokens response) in
  inputCost <- lift (TokenCost.calculateTokenCost FINETUNED_MODELS (model this)
                       TokenCost.Input inputTokens) ;;
  outputCost <- lift (TokenCost.calculateTokenCost FINETUNED_MODELS (model this)
                        TokenCost.Output outputTokens) ;;
  match choices response with
  | content :: _ =>
      ret {| ocr_text := or_empty content;
             ocr_usage := mkUsage start end_ inputTokens outputTokens
                            inputCost outputCost |}
  | [] => throw no_choice
  end.

End Provider.

End Maritaca.

(* ================================================================== *)
(** ** The model registry (registry.ts) *)
(* ================================================================== *)

Module Registry.

Inductive ProviderClass :=
| AzureDocumentIntelligenceProvider
| AWSTextractProvider
| AWSBedrockProvider
| AWSBedrockMistralProvider
| AWSBedrockPixtralProvider
| DashscopeProvider
| GeminiProvider
| GoogleDocumentAIProvider
| LLMProvider
| MistralProvider
| OmniAIProvider
| OpenAIProvider
| OpenRouterProvider
| TogetherProvider
| UnstructuredProvider
| ZeroxProvider
| MaritacaProvider.

Definition OPENAI_MODELS : list jsstring :=
  List.map js
    ["chatgpt-4o-latest"; "gpt-4o-mini"; "gpt-4o"; "o1"; "o1-mini"; "o3-mini";
     "o4-mini"; "gpt-4o-2024-11-20"; "gpt-4.1"; "gpt-4.1-mini"; "gpt-4.1-nano"]%string.

Definition AZURE_OPENAI_MODELS : list jsstring :=
  List.map js
    ["azure-gpt-4o-mini"; "azure-gpt-4o"; "azure-o1"; "azure-o1-mini";
     "azure-o3-mini"; "azure-gpt-4.1"; "azure-gpt-4.1-mini";
     "azure-gpt-4.1-nano"]%string.

Definition ANTHROPIC_MODELS : list jsstring :=
  List.map js ["claude-3-5-sonnet-20241022"; "claude-3-7-sonnet-20250219"]%string.

Definition DEEPSEEK_MODELS : list jsstring := List.map js ["deepseek-chat"]%string.

Definition GOOGLE_GENERATIVE_AI_MODELS : list jsstring :=
  List.map js
    ["gemini-1.5-pro"; "gemini-1.5-flash"; "gemini-2.0-flash-001";
     "gemini-2.5-pro-exp-03-25"; "gemini-2.5-pro-preview-03-25";
     "gemini-2.5-pro-preview-05-06"; "gemini-2.5-flash-preview-04-17"]%string.

Definition OPENROUTER_MODELS : list jsstring :=
  List.map js
    ["qwen/qwen2.5-vl-32b-instruct:free"; "qwen/qwen-2.5-vl-72b-instruct";
     "deepseek/deepseek-chat-v3-0324"; "meta-llama/llama-3.2-11b-vision-instruct";
     "meta-llama/llama-3.2-90b-vision-instruct"]%string.

Definition TOGETHER_MODELS : list jsstring :=
  List.map js
    ["meta-llama/Llama-3.2-11B-Vision-Instruct-Turbo";
     "meta-llama/Llama-3.2-90B-Vision-Instruct-Turbo";
     "meta-llama/Llama-4-Scout-17B-16E-Instruct";
     "meta-llama/Llama-4-Maverick-17B-128E-Instruct-FP8"]%string.

Definition MARITACA_MODELS : list jsstring :=
  List.map js ["sabia-3"; "sabia-3.1"; "sabiazinho-3"]%string.

Definition FINETUNED_MODELS : list jsstring := [].

Definition AWS_BEDROCK_MODELS : list jsstring :=
  List.map js ["us.meta.llama4-maverick-17b-instruct-v1:0"]%string.

Definition AWS_BEDROCK_MISTRAL_MODELS : list jsstring :=
  List.map js ["mistral.mixtral-8x7b-instruct-v0:1"]%string.

Definition AWS_BEDROCK_PIXTRAL_MODELS : list jsstring :=
  List.map js ["pixtral-12b-v1"; "pixtral-12b-instruct-v1"]%string.

(** One provider group; [provider] is [None] where the source writes
    [undefined]. *)
Record Group := { models : list jsstring; provider : option ProviderClass }.

(** The object [MODEL_PROVIDERS]: its properties in insertion order, which
    is the order [Object.values] lists them in. *)
Definition store := list (jsstring * Group).

Definition MODEL_PROVIDERS : store := [
  (js "anthropic", {| models := ANTHROPIC_MODELS; provider := Some LLMProvider |});
  (js "aws", {| models := [js "aws-textract"]; provider := Some AWSTextractProvider |});
  (js "awsBedrock", {| models := AWS_BEDROCK_MODELS; provider := Some AWSBedrockProvider |});
  (js "awsBedrockMistral",
    {| models := AWS_BEDROCK_MISTRAL_MODELS; provider := Some AWSBedrockMistralProvider |});
  (js "awsBedrockPixtral",
    {| models := AWS_BEDROCK_PIXTRAL_MODELS; provider := Some AWSBedrockPixtralProvider |});
  (js "azureOpenai", {| models := AZURE_OPENAI_MODELS; provider := Some LLMProvider |});
  (js "gemini", {| models := GOOGLE_GENERATIVE_AI_MODELS; provider := Some GeminiProvider |});
  (js "google",
    {| models := [js "google-document-ai"]; provider := Some GoogleDocumentAIProvider |});
  (js "deepseek", {| models := DEEPSEEK_MODELS; provider := Some LLMProvider |});
  (js "azure",
    {| models := [js "azure-document-intelligence"];
       provider := Some AzureDocumentIntelligenceProvider |});
  (js "mistral", {| models := [js "mistral-ocr"]; provider := Some MistralProvider |});
  (js "omniai", {| models := [js "omniai"]; provider := Some OmniAIProvider |});
  (js "openai", {| models := OPENAI_MODELS; provider := Some LLMProvider |});
  (js "maritaca", {| models := MARITACA_MODELS; provider := Some MaritacaProvider |});
  (js "openaiBase",
    {| models := [js "google/gemma-3-27b-it"]; provider := Some OpenAIProvider |});
  (js "openrouter", {| models := OPENROUTER_MODELS; provider := Some OpenRouterProvider |});
  (js "together", {| models := TOGETHER_MODELS; provider := Some TogetherProvider |});
  (js "dashscope",
    {| models := [js "qwen2.5-vl-32b-instruct"; js "qwen2.5-vl-72b-instruct"];
       provider := Some DashscopeProvider |});
  (js "unstructured", {| models := [js "unstructured"]; provider := Some UnstructuredProvider |});
  (js "zerox", {| models := [js "zerox"]; provider := Some ZeroxProvider |});
  (js "groundTruth", {| models := [js "ground-truth"]; provider := None |})
].

(** [o[key] = value]: an existing property keeps its place, a new one goes
    last. *)
Fixpoint assign (key : jsstring) (value : Group) (o : store) : store :=
  match o with
  | [] => [(key, value)]
  | (k, v) :: rest =>
      if str_eqb k key then (key, value) :: rest
      else (k, v) :: assign key value rest
  end.

(** [models.includes(model)] *)
Definition includes (model : jsstring) (l : list jsstring) : bool :=
  existsb (str_eqb model) l.

Definition not_supported (model : jsstring) : Error :=
  newError (js "Model '" ++ model ++ js "' is not supported.").

(** [new undefined(model)] *)
Definition not_a_constructor : Error :=
  {| name := js "TypeError";
     message := js "foundProvider.provider is not a constructor";
     metadata := None |}.

Section Dispatch.

(** A provider instance, and [new cls(model)]: the constructors read the
    process environment and throw when a key is missing. *)
Variable Provider : Type.
Variable construct : ProviderClass -> jsstring -> outcome Provider.

(** [getModelProvider(model)] over the shared object [MODEL_PROVIDERS]:
    the completion and the object as the call leaves it. [Return None]
    is [return undefined]. *)
Definition getModelProvider (MODEL_PROVIDERS : store) (model : jsstring)
  : outcome (option Provider) * store :=
  let MODEL_PROVIDERS :=
    assign (js "openaiFt")
      {| models := FINETUNED_MODELS; provider := Some LLMProvider |}
      MODEL_PROVIDERS in
  let foundProvider :=
    List.find (fun group => includes model (models group))
      (List.map snd MODEL_PROVIDERS) in
  match foundProvider with
  | Some foundProvider =>
      if str_eqb model (js "ground-truth") then (Return None, MODEL_PROVIDERS)
      else
        match provider foundProvider with
        | Some cls =>
            match construct cls model with
            | Return p => (Return (Some p), MODEL_PROVIDERS)
            | Throw e => (Throw e, MODEL_PROVIDERS)
            end
        | None => (Throw not_a_constructor, MODEL_PROVIDERS)
        end
  | None => (Throw (not_supported model), MODEL_PROVIDERS)
  end.

(** The shared object after a sequence of earlier calls. *)
Fixpoint store_after (earlier : list jsstring) (o : store) : store :=
  match earlier with
  | [] => o
  | model :: rest => store_after rest (snd (getModelProvider o model))
  end.

End Dispatch.

(** [model] appears in the model list of some group of [o]. *)
Definition listed (o : store) (model : jsstring) : Prop :=
  exists key group, In (key, group) o /\ In model (models group).

End Registry.

(* ================================================================== *)
(** ** Vocabulary of the statements *)
(* ================================================================== *)

(** Some [{] of [s] comes before some [}]. *)
Definition brace_pair (s : jsstring) : Prop :=
  exists i j, (i < j)%nat /\ nth_error s i = Some lbrace /\ nth_error s j = Some rbrace.

(** The first non-empty string of a list, the empty string if none. *)
Fixpoint first_nonempty (candidates : list jsstring) : jsstring :=
  match candidates with
  | [] => []
  | c :: rest => if falsy c then first_nonempty rest else c
  end.

(** The two totals of a usage record are the sums of its parts. *)
Definition usage_consistent (u : Usage) : Prop :=
  totalTokens u = PrimFloat.add (inputTokens u) (outputTokens u)
  /\ totalCost u = PrimFloat.add (inputCost u) (outputCost u).

(** The recovery as the specification words it: exact bounds from the
    first opening brace to the last closing brace, then a brace-depth
    balanced scan from the first opening brace, then a loose pattern
    match; a later strategy is tried only when the earlier ones produced
    no candidate. *)
Definition layered_recovery_spec (responseText : jsstring) : jsstring :=
  first_nonempty
    [Mistral.strategy1 responseText;     (* first [{] to last [}] *)
     Pixtral.strategy1 responseText;     (* balanced scan from the first [{] *)
     Mistral.strategy3 responseText].    (* [/\{[\s\S]*\}/] *)

(** Membership in some group's model list, decided. *)
Definition listedb (o : Registry.store) (model : jsstring) : bool :=
  existsb (fun entry => Registry.includes model (Registry.models (snd entry))) o.

(** The provider methods of the three provider files. *)
Inductive ProviderCall (Schema : Type) :=
| MistralOcr (this : Mistral.AWSBedrockMistralProvider) (imagePath : jsstring)
| MistralExtractFromText (this : Mistral.AWSBedrockMistralProvider)
    (text : jsstring) (schema : Schema)
| MistralExtractFromImage (this : Mistral.AWSBedrockMistralProvider)
    (imagePath : jsstring) (schema : Schema)
| PixtralOcr (this : Pixtral.AWSBedrockPixtralProvider) (imagePath : jsstring)
| PixtralExtractFromText (this : Pixtral.AWSBedrockPixtralProvider)
    (text : jsstring) (schema : Schema)
| PixtralExtractFromImage (this : Pixtral.AWSBedrockPixtralProvider)
    (imagePath : jsstring) (schema : Schema)
| MaritacaOcr (this : Maritaca.MaritacaProvider) (imagePath : jsstring).

(** The [usage] field of what a provider method resolves to. *)
Definition usage_of_call {W Json Schema : Type} (P : Platform W Json Schema)
  (FINETUNED_MODELS : list jsstring) (call : ProviderCall Schema) : M W Usage :=
  match call with
  | MistralOcr _ this imagePath =>
      r <- Mistral.ocr (W:=W) this imagePath ;; ret (ocr_usage r)
  | MistralExtractFromText this text schema =>
      r <- Mistral.extractFromText P FINETUNED_MODELS this text schema ;; ret (usage r)
  | MistralExtractFromImage this imagePath schema =>
      r <- Mistral.extractFromImage (W:=W) Json this imagePath schema ;;
      ret (usage r)
  | PixtralOcr _ this imagePath =>
      r <- Pixtral.ocr P FINETUNED_MODELS this imagePath ;; ret (ocr_usage r)
  | PixtralExtractFromText this text schema =>
      r <- Pixtral.extractFromText P FINETUNED_MODELS this text schema ;; ret (usage r)
  | PixtralExtractFromImage this imagePath schema =>
      r <- Pixtral.extractFromImage P FINETUNED_MODELS this imagePath schema ;;
      ret (usage r)
  | MaritacaOcr _ this imagePath =>
      r <- Maritaca.ocr P FINETUNED_MODELS this imagePath ;; ret (ocr_usage r)
  end.

(* ================================================================== *)
(** ** Sample operations and a sample platform *)
(* ================================================================== *)

Module Sample.

(** A throttling exception as the SDK throws it. *)
Definition throttled : Error :=
  {| name := js "ThrottlingException";
     message := js "Too many requests";
     metadata := Some {| httpStatusCode := Some 429 |} |}.

Definition denied : Error :=
  {| name := js "AccessDeniedException";
     message := js "Not authorized";
     metadata := Some {| httpStatusCode := Some 403 |} |}.

(** Over a counter of the calls made so far: throttled on the first
    [failures] calls, then resolves to 42. *)
Definition flaky (failures : nat) : operation nat Z :=
  fun calls =>
    (if (calls <? failures)%nat then Throw throttled else Return 42, S calls, []).

(** Refused on every call. *)
Definition refused : operation nat Z :=
  fun calls => (Throw denied, S calls, []).

(** A platform whose services always answer; its parser accepts any text
    and hands it back. *)
Definition platform : Platform unit jsstring unit :=
  {| JSON_parse := fun text => Return text;
     performance_now := ret 0%float;
     client_send := fun _ =>
       ret {| output_text := Some (js "Here it is: {a:1}");
              usage_inputTokens := Some 1200%float;
              usage_outputTokens := Some 300%float |};
     fetch_arrayBuffer := fun _ => ret [];
     chat_completions_create := fun _ _ =>
       ret {| choices := [Some (js "text")];
              prompt_tokens := Some 1000%float;
              completion_tokens := Some 50%float |} |}.

(** Constructors that always succeed and remember the class and the
    model. *)
Definition construct (cls : Registry.ProviderClass) (model : jsstring)
  : outcome (Registry.ProviderClass * jsstring) :=
  Return (cls, model).

Definition mixtral : Mistral.AWSBedrockMistralProvider :=
  {| Mistral.model := js "mistral.mixtral-8x7b-instruct-v0:1";
     Mistral.modelId := js "mistral.mixtral-8x7b-instruct-v0:1" |}.

End Sample.

(* ================================================================== *)
(** ** Further vocabulary *)
(* ================================================================== *)

(** The sum of a list of delays. *)
Definition total (delays : list Z) : Z := fold_right Z.add 0 delays.

(** The number of code units of [s] equal to [c]. *)
Definition count (c : N) (s : jsstring) : nat :=
  List.length (List.filter (N.eqb c) s).

(* ================================================================== *)
(** ** Further sample operations *)
(* ================================================================== *)

Module Cases.

(** Over a counter of the calls made so far: throttled on the first
    [failures] calls, refused from then on. *)
Definition throttled_then_denied (failures : nat) : operation nat Z :=
  fun calls =>
    (Throw (if (calls <? failures)%nat then Sample.throttled else Sample.denied),
     S calls, []).

End Cases.

(** [c] is an opening brace, a body and a closing brace. *)
Definition braced (c : jsstring) : Prop :=
  exists body, c = lbrace :: body ++ [rbrace].

(** The listed identifiers for which the cost table has no entry. *)
Definition unpriced_listed : list jsstring :=
  List.map js
    ["aws-textract"; "google-document-ai"; "azure-document-intelligence";
     "mistral-ocr"; "omniai"; "qwen/qwen2.5-vl-32b-instruct:free";
     "qwen/qwen-2.5-vl-72b-instruct"; "unstructured"; "ground-truth"]%string.

(** Every listed identifier, with the group that lists it. *)
Definition listings (o : Registry.store) : list (jsstring * (jsstring * Registry.Group)) :=
  flat_map (fun entry => List.map (fun model => (model, entry)) (Registry.models (snd entry))) o.

(** No string occurs twice. *)
Fixpoint distinct (l : list jsstring) : bool :=
  match l with
  | [] => true
  | x :: rest => negb (existsb (str_eqb x) rest) && distinct rest
  end.

(** [calculateTokenCost] returns for this model. *)
Definition priced (FINETUNED_MODELS : list jsstring) (model : jsstring) : bool :=
  match TokenCost.lookup model (TokenCost.combinedCost FINETUNED_MODELS) with
  | Some _ => true
  | None => existsb (str_eqb model) TokenCost.inherited_keys
  end.

(* ================================================================== *)
(** ** Further sample platforms *)
(* ================================================================== *)

Module Replies.

(** The model answers in prose; the chat completion is throttled. *)
Definition prose_platform : Platform unit jsstring unit :=
  {| JSON_parse := fun text => Return text;
     performance_now := ret 0%float;
     client_send := fun _ =>
       ret {| output_text := Some (js "I cannot read this document.");
              usage_inputTokens := None;
              usage_outputTokens := None |};
     fetch_arrayBuffer := fun _ => ret [];
     chat_completions_create := fun _ _ => throw Sample.throttled |}.

(** The chat completion comes back without a choice. *)
Definition empty_platform : Platform unit jsstring unit :=
  {| JSON_parse := fun text => Return text;
     performance_now := ret 0%float;
     client_send := fun _ =>
       ret {| output_text := None; usage_inputTokens := None;
              usage_outputTokens := None |};
     fetch_arrayBuffer := fun _ => ret [];
     chat_completions_create := fun _ _ =>
       ret {| choices := []; prompt_tokens := Some 10%float;
              completion_tokens := None |} |}.

Definition pixtral12b : Pixtral.AWSBedrockPixtralProvider :=
  {| Pixtral.model := js "pixtral-12b-v1";
     Pixtral.inferenceProfileId := js "eu.mistral.pixtral-large-2502-v1:0" |}.

Definition sabia : Maritaca.MaritacaProvider := {| Maritaca.model := js "sabia-3" |}.

End Replies.

(* ================================================================== *)
(** * Properties *)
(* ================================================================== *)

(** ** Traces *)

Lemma sleeps_of_app (a b : list event) :
  sleeps_of (a ++ b) = sleeps_of a ++ sleeps_of b.
Proof. unfold sleeps_of. apply flat_map_app. Qed.

Lemma attempts_of_app (a b : list event) :
  attempts_of (a ++ b) = (attempts_of a + attempts_of b)%nat.
Proof. unfold attempts_of. rewrite filter_app, length_app. reflexivity. Qed.

Lemma str_eqb_eq (a b : jsstring) : str_eqb a b = true <-> a = b.
Proof.
  revert b. induction a as [|x a IH]; intros [|y b]; simpl; split;
    try congruence; try reflexivity.
  - intros H. apply andb_true_iff in H. destruct H as [H1 H2].
    apply N.eqb_eq in H1. apply IH in H2. congruence.
  - intros H. injection H as -> ->. rewrite N.eqb_refl. simpl. now apply IH.
Qed.

Lemma str_eqb_refl (a : jsstring) : str_eqb a a = true.
Proof. now apply str_eqb_eq. Qed.

(** ** The retry executor *)

Section RetryFacts.

Variables W T : Type.
Variable MAX_RETRIES : nat.
Variables BASE_DELAY MAX_DELAY : Z.
Variable op : operation W T.
Variable operationName : jsstring.

Local Abbreviation retry_loop :=
  (Retry.retry_loop MAX_RETRIES BASE_DELAY MAX_DELAY op operationName).
Local Abbreviation executeWithRetry :=
  (Retry.executeWithRetry MAX_RETRIES BASE_DELAY MAX_DELAY op operationName).
Local Abbreviation backoff := (Retry.backoff BASE_DELAY MAX_DELAY).
Local Abbreviation isThrottling := Retry.isThrottling.
Local Abbreviation prologue :=
  (Retry.prologue MAX_RETRIES BASE_DELAY MAX_DELAY operationName).
Local Abbreviation epilogue := (Retry.epilogue MAX_RETRIES operationName).
Local Abbreviation schedule := (Retry.schedule BASE_DELAY MAX_DELAY).

(** One iteration of the loop, read off the completion of the call. *)
Lemma retry_loop_step (remaining attempt : nat) (lastError : option Error) (w : W) :
  retry_loop (S remaining) attempt lastError w =
  match op w with
  | (Return v, w1, t) => (Return v, w1, prologue attempt ++ [EvInvoke t])
  | (Throw e, w1, t) =>
      if isThrottling e then
        match retry_loop remaining (S attempt) (Some e) w1 with
        | (r, w2, t2) =>
            (r, w2, (prologue attempt ++ [EvInvoke t]) ++ epilogue attempt ++ t2)
        end
      else (Throw e, w1, (prologue attempt ++ [EvInvoke t]) ++ [])
  end.
Proof.
  cbn [Retry.retry_loop].
  unfold try_catch, bind, when, invoke, Retry.prologue, Retry.epilogue, console_log, sleep,
    emit, ret, throw.
  destruct (0 <? attempt)%nat; cbv beta iota;
    destruct (op w) as [[[v|e] w1] t]; cbv beta iota; try reflexivity;
    destruct (isThrottling e); cbv beta iota; try reflexivity;
    destruct (attempt <? MAX_RETRIES)%nat; cbv beta iota;
    destruct (retry_loop remaining (S attempt) (Some e) w1) as [[r w2] t2];
    reflexivity.
Qed.

Lemma sleeps_of_prologue (attempt : nat) :
  sleeps_of (prologue attempt) = schedule attempt 1.
Proof.
  unfold Retry.prologue, Retry.schedule. simpl. destruct (0 <? attempt)%nat; reflexivity.
Qed.

Lemma attempts_of_prologue (attempt : nat) : attempts_of (prologue attempt) = 0%nat.
Proof. unfold Retry.prologue. destruct (0 <? attempt)%nat; reflexivity. Qed.

Lemma sleeps_of_epilogue (attempt : nat) : sleeps_of (epilogue attempt) = [].
Proof. unfold Retry.epilogue. destruct (attempt <? MAX_RETRIES)%nat; reflexivity. Qed.

Lemma attempts_of_epilogue (attempt : nat) : attempts_of (epilogue attempt) = 0%nat.
Proof. unfold Retry.epilogue. destruct (attempt <? MAX_RETRIES)%nat; reflexivity. Qed.

Lemma schedule_S (attempt n : nat) :
  schedule attempt (S n) = schedule attempt 1 ++ schedule (S attempt) n.
Proof. unfold Retry.schedule. simpl. now rewrite app_nil_r. Qed.

Lemma schedule_from_1 (attempt n : nat) :
  (0 < attempt)%nat -> schedule attempt n = List.map backoff (seq attempt n).
Proof.
  revert attempt. induction n as [|n IH]; intros attempt Ha; [reflexivity|].
  rewrite schedule_S, IH by lia. unfold Retry.schedule. simpl.
  destruct attempt; [lia | reflexivity].
Qed.

Lemma schedule_0 (n : nat) : schedule 0 (S n) = List.map backoff (seq 1 n).
Proof. rewrite schedule_S. simpl. apply schedule_from_1. lia. Qed.

Lemma nth_completion_S (n : nat) (w : W) :
  Retry.nth_completion op (S n) w = Retry.nth_completion op n (snd (fst (op w))).
Proof. reflexivity. Qed.

(** [k] transient failures, then a completion [r] that is not one: the
    loop stops there with [r], having called [k + 1] times. *)
Lemma retry_loop_settles (k : nat) :
  forall (remaining attempt : nat) (lastError : option Error) (w : W) (r : outcome T),
    (k < remaining)%nat ->
    (forall i, (i < k)%nat ->
       Retry.fails_transiently (Retry.nth_completion op i w)) ->
    Retry.nth_completion op k w = r ->
    ~ Retry.fails_transiently r ->
    exists tr,
      retry_loop remaining attempt lastError w
        = (r, Retry.after_calls op (S k) w, tr)
      /\ attempts_of tr = S k
      /\ sleeps_of tr = schedule attempt (S k).
Proof.
  induction k as [|k IH]; intros remaining attempt lastError w r Hk Hfail Hlast Hr.
  - destruct remaining as [|remaining]; [lia|].
    rewrite retry_loop_step. unfold Retry.nth_completion in Hlast. simpl in *.
    destruct (op w) as [[[v|e] w1] t]; simpl in *; subst r.
    + eexists; split; [reflexivity|].
      rewrite attempts_of_app, sleeps_of_app, attempts_of_prologue, sleeps_of_prologue.
      split; [reflexivity | now rewrite app_nil_r].
    + destruct (isThrottling e) eqn:E; [now elim Hr|].
      eexists; split; [reflexivity|].
      rewrite !attempts_of_app, !sleeps_of_app, attempts_of_prologue, sleeps_of_prologue.
      split; [reflexivity | now rewrite !app_nil_r].
  - destruct remaining as [|remaining]; [lia|].
    rewrite retry_loop_step.
    pose proof (Hfail 0%nat ltac:(lia)) as H0.
    unfold Retry.nth_completion in H0. simpl in H0.
    rewrite nth_completion_S in Hlast.
    assert (Hfail' : forall i, (i < k)%nat ->
              Retry.fails_transiently (Retry.nth_completion op i (snd (fst (op w))))).
    { intros i Hi. rewrite <- nth_completion_S. apply Hfail. lia. }
    cbn [Retry.after_calls].
    destruct (op w) as [[[v|e] w1] t]; simpl in *; [contradiction|].
    rewrite H0.
    destruct (IH remaining (S attempt) (Some e) w1 r ltac:(lia) Hfail' Hlast Hr)
      as (tr & Heq & Hatt & Hsl).
    rewrite Heq. eexists; split; [reflexivity|].
    rewrite !attempts_of_app, !sleeps_of_app, attempts_of_prologue, sleeps_of_prologue,
      attempts_of_epilogue, sleeps_of_epilogue, Hatt, Hsl.
    split; [reflexivity|].
    change (sleeps_of [EvInvoke t]) with (@nil Z).
    rewrite app_nil_r. simpl app. now rewrite (schedule_S attempt (S k)).
Qed.

(** Transient failures on each of the [n + 1] calls that are left: the
    loop runs out and throws the error that wraps the last one. *)
Lemma retry_loop_exhausts (n : nat) :
  forall (attempt : nat) (lastError : option Error) (w : W),
    (forall i, (i <= n)%nat ->
       Retry.fails_transiently (Retry.nth_completion op i w)) ->
    exists e tr,
      Retry.nth_completion op n w = Throw e
      /\ retry_loop (S n) attempt lastError w
         = (Throw (newError (Retry.exhausted_message MAX_RETRIES operationName (message e))),
            Retry.after_calls op (S n) w, tr)
      /\ attempts_of tr = S n
      /\ sleeps_of tr = schedule attempt (S n).
Proof.
  induction n as [|n IH]; intros attempt lastError w Hfail;
    rewrite retry_loop_step;
    pose proof (Hfail 0%nat ltac:(lia)) as H0;
    unfold Retry.nth_completion in H0; simpl in H0.
  - unfold Retry.nth_completion. simpl.
    destruct (op w) as [[[v|e] w1] t]; simpl in *; [contradiction|].
    rewrite H0. exists e. eexists. split; [reflexivity|].
    split; [reflexivity|].
    rewrite !attempts_of_app, !sleeps_of_app, attempts_of_prologue, sleeps_of_prologue,
      attempts_of_epilogue, sleeps_of_epilogue.
    split; [reflexivity|].
    change (sleeps_of [EvInvoke t]) with (@nil Z). now rewrite !app_nil_r.
  - assert (Hfail' : forall i, (i <= n)%nat ->
              Retry.fails_transiently (Retry.nth_completion op i (snd (fst (op w))))).
    { intros i Hi. rewrite <- nth_completion_S. apply Hfail. lia. }
    rewrite nth_completion_S. cbn [Retry.after_calls].
    destruct (op w) as [[[v|e] w1] t]; cbn [fst snd] in *; cbv beta iota;
      [contradiction|].
    cbn [Retry.fails_transiently] in H0. rewrite H0.
    destruct (IH (S attempt) (Some e) w1 Hfail') as (e' & tr & Hlast & Heq & Hatt & Hsl).
    rewrite Heq. exists e'. eexists. split; [exact Hlast|].
    split; [reflexivity|].
    rewrite !attempts_of_app, !sleeps_of_app, attempts_of_prologue, sleeps_of_prologue,
      attempts_of_epilogue, sleeps_of_epilogue, Hatt, Hsl.
    split; [reflexivity|].
    change (sleeps_of [EvInvoke t]) with (@nil Z).
    rewrite app_nil_r. simpl app. now rewrite (schedule_S attempt (S n)).
Qed.

Lemma backoff_capped (attempt : nat) : backoff attempt <= MAX_DELAY.
Proof. apply Z.le_min_r. Qed.

Lemma backoff_monotone (a b : nat) :
  0 <= BASE_DELAY -> (1 <= a <= b)%nat -> backoff a <= backoff b.
Proof.
  intros Hbase Hab. unfold Retry.backoff.
  apply Z.min_le_compat_r, Z.mul_le_mono_nonneg_l; [assumption|].
  apply Z.pow_le_mono_r; lia.
Qed.

Lemma nth_schedule (k i : nat) :
  (i < k)%nat -> nth i (List.map backoff (seq 1 k)) 0 = backoff (S i).
Proof.
  intros Hi. rewrite (nth_indep _ 0 (backoff 0)) by now rewrite length_map, length_seq.
  rewrite map_nth, seq_nth by assumption. reflexivity.
Qed.

Lemma steps_of_app (a b : list event) :
  steps_of (a ++ b) = steps_of a ++ steps_of b.
Proof. unfold steps_of. apply flat_map_app. Qed.

Lemma steps_of_prologue (attempt : nat) :
  steps_of (prologue attempt)
  = if (0 <? attempt)%nat then [Slept (backoff attempt)] else [].
Proof. unfold Retry.prologue. destruct (0 <? attempt)%nat; reflexivity. Qed.

Lemma steps_of_epilogue (attempt : nat) : steps_of (epilogue attempt) = [].
Proof. unfold Retry.epilogue. destruct (attempt <? MAX_RETRIES)%nat; reflexivity. Qed.

Lemma retry_steps_S (attempt n : nat) :
  Retry.retry_steps BASE_DELAY MAX_DELAY attempt (S n)
  = (if (0 <? attempt)%nat then [Slept (backoff attempt)] else [])
      ++ [Called] ++ Retry.retry_steps BASE_DELAY MAX_DELAY (S attempt) n.
Proof. unfold Retry.retry_steps. cbn [seq flat_map]. now rewrite <- app_assoc. Qed.

Lemma retry_steps_from_1 (attempt n : nat) :
  (0 < attempt)%nat ->
  Retry.retry_steps BASE_DELAY MAX_DELAY attempt n
  = flat_map (fun i => [Slept (backoff i); Called]) (seq attempt n).
Proof.
  revert attempt. induction n as [|n IH]; intros attempt Ha; [reflexivity|].
  rewrite retry_steps_S, IH by lia. cbn [seq flat_map].
  destruct attempt; [lia | reflexivity].
Qed.

Lemma retry_steps_0 (n : nat) :
  Retry.retry_steps BASE_DELAY MAX_DELAY 0 (S n)
  = Called :: flat_map (fun i => [Slept (backoff i); Called]) (seq 1 n).
Proof. rewrite retry_steps_S, retry_steps_from_1 by lia. reflexivity. Qed.

(** In every run of the loop each call but that of iteration 0 comes
    right after the sleep of its iteration, and nothing else sleeps. *)
Lemma retry_loop_steps (remaining : nat) :
  forall (attempt : nat) (lastError : option Error) (w : W),
    steps_of (snd (retry_loop remaining attempt lastError w))
    = Retry.retry_steps BASE_DELAY MAX_DELAY attempt
        (attempts_of (snd (retry_loop remaining attempt lastError w))).
Proof.
  induction remaining as [|remaining IH]; intros attempt lastError w.
  - cbn [Retry.retry_loop]. destruct lastError; reflexivity.
  - rewrite retry_loop_step.
    destruct (op w) as [[[v|e] w1] t]; cbn [snd].
    + rewrite steps_of_app, attempts_of_app, steps_of_prologue, attempts_of_prologue.
      change (attempts_of [EvInvoke t]) with 1%nat. cbn [Nat.add].
      rewrite retry_steps_S. reflexivity.
    + destruct (Retry.isThrottling e).
      * specialize (IH (S attempt) (Some e) w1).
        destruct (retry_loop remaining (S attempt) (Some e) w1) as [[r w2] t2].
        cbn [snd] in *.
        rewrite !steps_of_app, !attempts_of_app, steps_of_prologue,
          attempts_of_prologue, steps_of_epilogue, attempts_of_epilogue, IH.
        change (attempts_of [EvInvoke t]) with 1%nat. cbn [Nat.add].
        rewrite retry_steps_S, <- app_assoc. reflexivity.
      * cbn [snd].
        rewrite !steps_of_app, !attempts_of_app, steps_of_prologue,
          attempts_of_prologue.
        change (attempts_of [EvInvoke t]) with 1%nat.
        change (attempts_of []) with 0%nat. cbn [Nat.add].
        rewrite retry_steps_S, app_nil_r. reflexivity.
Qed.

(** C1. An operation that fails with a throttling error exactly [k] times,
    [k < MAX_RETRIES], and then succeeds: [executeWithRetry] returns that
    success after exactly [k + 1] attempts and exactly [k] sleeps; the
    first call is made at once, and each retry [i] comes right after a
    sleep of [min(BASE_DELAY * 2^(i-1), MAX_DELAY)], so the delays never
    decrease and never exceed [MAX_DELAY]. *)
Theorem executeWithRetry_recovers (w : W) (k : nat) (v : T) :
  (k < MAX_RETRIES)%nat ->
  0 <= BASE_DELAY ->
  (forall i, (i < k)%nat ->
     Retry.fails_transiently (Retry.nth_completion op i w)) ->
  Retry.nth_completion op k w = Return v ->
  exists tr,
    executeWithRetry w = (Return v, Retry.after_calls op (S k) w, tr)
    /\ attempts_of tr = S k
    /\ steps_of tr
       = Called
         :: flat_map
              (fun i =>
                 [Slept (Z.min (BASE_DELAY * 2 ^ (Z.of_nat i - 1)) MAX_DELAY); Called])
              (seq 1 k)
    /\ List.length (sleeps_of tr) = k
    /\ (forall i, (1 <= i <= k)%nat ->
          nth (i - 1) (sleeps_of tr) 0
          = Z.min (BASE_DELAY * 2 ^ (Z.of_nat i - 1)) MAX_DELAY)
    /\ (forall i j, (i <= j < k)%nat ->
          nth i (sleeps_of tr) 0 <= nth j (sleeps_of tr) 0)
    /\ Forall (fun delay => delay <= MAX_DELAY) (sleeps_of tr).
Proof.
  intros Hk Hbase Hfail Hlast.
  destruct (@retry_loop_settles k (S MAX_RETRIES) 0%nat None w (Return v))
    as (tr & Heq & Hatt & Hsl); [lia | assumption | assumption | now simpl |].
  rewrite schedule_0 in Hsl.
  exists tr. split; [exact Heq|]. split; [exact Hatt|].
  split.
  { pose proof (retry_loop_steps (S MAX_RETRIES) 0 None w) as Hsteps.
    rewrite Heq in Hsteps. cbn [snd] in Hsteps.
    rewrite Hsteps, Hatt. apply retry_steps_0. }
  rewrite Hsl.
  split; [now rewrite length_map, length_seq|].
  split; [|split].
  - intros i Hi. rewrite nth_schedule by lia.
    replace (S (i - 1)) with i by lia. reflexivity.
  - intros i j Hij. rewrite !nth_schedule by lia.
    apply backoff_monotone; [assumption | lia].
  - apply Forall_forall. intros d Hd. apply in_map_iff in Hd.
    destruct Hd as (a & <- & _). apply backoff_capped.
Qed.

(** C2. An operation that fails with a throttling error on every attempt:
    [executeWithRetry] fails after exactly [MAX_RETRIES + 1] attempts, and
    the error it throws carries the message of the last underlying error
    and the number of attempts made. *)
Theorem executeWithRetry_gives_up (w : W) :
  (forall i, (i <= MAX_RETRIES)%nat ->
     Retry.fails_transiently (Retry.nth_completion op i w)) ->
  exists lastError tr,
    Retry.nth_completion op MAX_RETRIES w = Throw lastError
    /\ executeWithRetry w
       = (Throw (newError
                   (operationName ++ js " failed after "
                      ++ show (Z.of_nat MAX_RETRIES + 1)
                      ++ js " attempts. Last error: " ++ message lastError)),
          Retry.after_calls op (S MAX_RETRIES) w, tr)
    /\ attempts_of tr = S MAX_RETRIES
    /\ List.length (sleeps_of tr) = MAX_RETRIES.
Proof.
  intros Hfail.
  destruct (@retry_loop_exhausts MAX_RETRIES 0%nat None w Hfail)
    as (e & tr & Hlast & Heq & Hatt & Hsl).
  exists e, tr. repeat split; try assumption.
  rewrite Hsl, schedule_0, length_map, length_seq. reflexivity.
Qed.

(** C4. An operation whose error is permanent, neither named
    [ThrottlingException] nor carrying HTTP status 429: [executeWithRetry]
    throws that very error after the first attempt, without a retry and
    without a sleep. *)
Theorem executeWithRetry_permanent (w : W) (error : Error) :
  Retry.nth_completion op 0 w = Throw error ->
  name error <> js "ThrottlingException" ->
  (forall md, metadata error = Some md -> httpStatusCode md <> Some 429) ->
  exists tr,
    executeWithRetry w = (Throw error, Retry.after_calls op 1 w, tr)
    /\ attempts_of tr = 1%nat
    /\ sleeps_of tr = [].
Proof.
  intros Hfirst Hname Hstatus.
  assert (Hperm : isThrottling error = false).
  { unfold Retry.isThrottling. apply orb_false_iff. split.
    - destruct (str_eqb (name error) (js "ThrottlingException")) eqn:E; [|reflexivity].
      apply str_eqb_eq in E. contradiction.
    - destruct (metadata error) as [md|] eqn:Emd; [|reflexivity].
      specialize (Hstatus md eq_refl).
      destruct (httpStatusCode md) as [c|]; [|reflexivity].
      apply Z.eqb_neq. congruence. }
  destruct (@retry_loop_settles 0 (S MAX_RETRIES) 0%nat None w (Throw error))
    as (tr & Heq & Hatt & Hsl);
    [lia | intros i Hi; lia | assumption | simpl; congruence |].
  exists tr. repeat split; assumption.
Qed.

End RetryFacts.


(** ** String primitives *)

Section StrFacts.

Variable c : N.

Lemma indexOf_from_bounds (s : jsstring) :
  forall (k : nat) (i : Z),
    nth_error s k = Some c ->
    i <= Str.indexOf_from c s i <= i + Z.of_nat k.
Proof.
  induction s as [|x s IH]; intros [|k] i H; simpl in *; try discriminate.
  - injection H as ->. rewrite N.eqb_refl. lia.
  - destruct (N.eqb x c); [lia|]. specialize (IH k (i + 1) H). lia.
Qed.

Lemma lastIndexOf_from_ge_found (s : jsstring) :
  forall (i found : Z), found < i -> found <= Str.lastIndexOf_from c s i found.
Proof.
  induction s as [|x s IH]; intros i found H; simpl; [lia|].
  destruct (N.eqb x c).
  - specialize (IH (i + 1) i). lia.
  - specialize (IH (i + 1) found). lia.
Qed.

Lemma lastIndexOf_from_bounds (s : jsstring) :
  forall (k : nat) (i found : Z),
    nth_error s k = Some c ->
    found < i ->
    i + Z.of_nat k <= Str.lastIndexOf_from c s i found.
Proof.
  induction s as [|x s IH]; intros [|k] i found H Hf; simpl in *; try discriminate.
  - injection H as ->. rewrite N.eqb_refl.
    pose proof (@lastIndexOf_from_ge_found s (i + 1) i). lia.
  - destruct (N.eqb x c).
    + specialize (IH k (i + 1) i H). lia.
    + specialize (IH k (i + 1) found H). lia.
Qed.

End StrFacts.

Lemma substring_nonempty (s : jsstring) (a b : Z) :
  0 <= a < Str.length s -> a < b -> Str.substring s a b <> [].
Proof.
  unfold Str.substring, Str.length. intros Ha Hb.
  set (len := Z.of_nat (List.length s)) in *.
  replace (Z.min (Z.min (Z.max a 0) len) (Z.min (Z.max b 0) len)) with a by lia.
  assert (Hhi : a < Z.max (Z.min (Z.max a 0) len) (Z.min (Z.max b 0) len)) by lia.
  destruct (skipn (Z.to_nat a) s) as [|x rest] eqn:E.
  - apply (f_equal (@List.length N)) in E. rewrite length_skipn in E.
    simpl in E. lia.
  - destruct (Z.to_nat (Z.max (Z.min (Z.max a 0) len) (Z.min (Z.max b 0) len) - a))
      eqn:En; [lia|]. simpl. discriminate.
Qed.

Lemma brace_pair_cons (x : N) (s : jsstring) : brace_pair s -> brace_pair (x :: s).
Proof.
  intros (i & j & Hij & Hi & Hj). exists (S i), (S j). repeat split; [lia|assumption..].
Qed.

(** ** JSON recovery of the Mistral provider *)

Lemma strategy1_finds_pair (s : jsstring) : brace_pair s -> Mistral.strategy1 s <> [].
Proof.
  intros (i & j & Hij & Hi & Hj). unfold Mistral.strategy1, Str.indexOf, Str.lastIndexOf.
  pose proof (@indexOf_from_bounds lbrace s i 0 Hi) as Hfirst.
  pose proof (@lastIndexOf_from_bounds rbrace s j 0 (-1) Hj ltac:(lia)) as Hlast.
  assert (Hlen : (i < List.length s)%nat) by (apply nth_error_Some; congruence).
  set (firstBrace := Str.indexOf_from lbrace s 0) in *.
  set (lastBrace := Str.lastIndexOf_from rbrace s 0 (-1)) in *.
  replace (firstBrace =? -1) with false by (symmetry; apply Z.eqb_neq; lia).
  replace (lastBrace =? -1) with false by (symmetry; apply Z.eqb_neq; lia).
  replace (lastBrace >? firstBrace) with true by (symmetry; apply Z.gtb_lt; lia).
  simpl. apply substring_nonempty; unfold Str.length; lia.
Qed.

Lemma balanced_scan_finds_pair (s : jsstring) :
  forall (i braceCount startIndex startIndex' endIndex' : Z),
    Mistral.balanced_scan s i braceCount startIndex = (startIndex', endIndex') ->
    endIndex' <> -1 ->
    0 <= i ->
    startIndex = -1 \/ startIndex < i ->
    startIndex' <> -1
    /\ startIndex' < endIndex'
    /\ i <= endIndex'
    /\ nth_error s (Z.to_nat (endIndex' - i)) = Some rbrace
    /\ (startIndex' = startIndex
        \/ (i <= startIndex'
            /\ nth_error s (Z.to_nat (startIndex' - i)) = Some lbrace)).
Proof.
  induction s as [|x s IH]; intros i bc st st' en' Hscan Hen Hi Hst; simpl in Hscan.
  - injection Hscan as <- <-. contradiction.
  - assert (Hshift : forall z, i + 1 <= z ->
              Z.to_nat (z - i) = S (Z.to_nat (z - (i + 1)))) by (intros; lia).
    destruct (N.eqb x lbrace) eqn:El.
    + apply N.eqb_eq in El. subst x.
      apply IH in Hscan; [|assumption|lia|destruct (bc =? 0); lia].
      destruct Hscan as (H1 & H2 & H3 & H4 & H5).
      repeat split; try assumption; try lia.
      * rewrite Hshift by lia. exact H4.
      * destruct H5 as [H5|[H5 H6]].
        -- destruct (bc =? 0).
           ++ right. subst st'. split; [lia|].
              replace (i - i) with 0 by lia. reflexivity.
           ++ left. exact H5.
        -- right. split; [lia|]. rewrite Hshift by lia. exact H6.
    + destruct (N.eqb x rbrace) eqn:Er.
      * apply N.eqb_eq in Er. subst x.
        destruct ((bc - 1 =? 0) && negb (st =? -1))%bool eqn:Ec.
        -- injection Hscan as <- <-.
           apply andb_true_iff in Ec. destruct Ec as [_ Ec].
           apply negb_true_iff, Z.eqb_neq in Ec.
           repeat split; try lia.
           replace (i - i) with 0 by lia. reflexivity.
        -- apply IH in Hscan; [|assumption|lia|lia].
           destruct Hscan as (H1 & H2 & H3 & H4 & H5).
           repeat split; try assumption; try lia.
           ++ rewrite Hshift by lia. exact H4.
           ++ destruct H5 as [H5|[H5 H6]]; [now left|].
              right. split; [lia|]. rewrite Hshift by lia. exact H6.
      * apply IH in Hscan; [|assumption|lia|lia].
        destruct Hscan as (H1 & H2 & H3 & H4 & H5).
        repeat split; try assumption; try lia.
        -- rewrite Hshift by lia. exact H4.
        -- destruct H5 as [H5|[H5 H6]]; [now left|].
           right. split; [lia|]. rewrite Hshift by lia. exact H6.
Qed.

Lemma strategy2_needs_pair (s : jsstring) : Mistral.strategy2 s <> [] -> brace_pair s.
Proof.
  unfold Mistral.strategy2.
  destruct (Mistral.balanced_scan s 0 0 (-1)) as [st en] eqn:Hscan.
  destruct (negb (st =? -1) && negb (en =? -1))%bool eqn:Ec; [|congruence].
  intros _. apply andb_true_iff in Ec. destruct Ec as [_ Ec].
  apply negb_true_iff, Z.eqb_neq in Ec.
  destruct (@balanced_scan_finds_pair s 0 0 (-1) st en Hscan Ec ltac:(lia) ltac:(now left))
    as (H1 & H2 & H3 & H4 & H5).
  destruct H5 as [H5|[H5 H6]]; [contradiction|].
  rewrite Z.sub_0_r in H4, H6.
  exists (Z.to_nat st), (Z.to_nat en). repeat split; [lia|assumption..].
Qed.

Lemma star_then_rbrace_ends (C : N -> bool) (s : jsstring) :
  forall n, Str.star_then_rbrace C s = Some n ->
            exists m, n = S m /\ nth_error s m = Some rbrace.
Proof.
  induction s as [|x s IH]; intros n H; simpl in H; [discriminate|].
  destruct (if C x then Str.star_then_rbrace C s else None) as [k|] eqn:E.
  - injection H as <-. destruct (C x); [|discriminate].
    destruct (IH k E) as (m & -> & Hm). exists (S m). split; [reflexivity|exact Hm].
  - destruct (N.eqb x rbrace) eqn:Er; [|discriminate].
    injection H as <-. apply N.eqb_eq in Er. subst x. exists 0%nat. split; reflexivity.
Qed.

Lemma regex_match_needs_pair (C : N -> bool) (s : jsstring) :
  forall m, Str.regex_match C s = Some m -> brace_pair s.
Proof.
  induction s as [|x s IH]; intros m H; simpl in H; [discriminate|].
  destruct (N.eqb x lbrace) eqn:El.
  - destruct (Str.star_then_rbrace C s) as [n|] eqn:E; simpl in H.
    + apply N.eqb_eq in El. subst x.
      destruct (star_then_rbrace_ends C s E) as (k & _ & Hk).
      exists 0%nat, (S k). repeat split; [lia|exact Hk].
    + apply brace_pair_cons. eapply IH. exact H.
  - apply brace_pair_cons. eapply IH. exact H.
Qed.

Lemma strategy3_needs_pair (s : jsstring) : Mistral.strategy3 s <> [] -> brace_pair s.
Proof.
  unfold Mistral.strategy3.
  destruct (Str.regex_match Str.anyChar s) as [m|] eqn:E; [|congruence].
  intros _. eapply regex_match_needs_pair. exact E.
Qed.

Lemma falsy_nil (s : jsstring) : falsy s = true <-> s = [].
Proof. destruct s; simpl; split; congruence. Qed.

(** C9. In the Mistral provider, strategies 2 and 3 find a candidate only
    in a response where strategy 1 has found one: on every response the
    recovery returns what strategy 1 alone returns. *)
Theorem mistral_recovery_is_strategy1 (responseText : jsstring) :
  (Mistral.strategy1 responseText = [] -> Mistral.strategy2 responseText = [])
  /\ (Mistral.strategy1 responseText = [] -> Mistral.strategy3 responseText = [])
  /\ Mistral.recoverJson responseText = Mistral.strategy1 responseText.
Proof.
  assert (H2 : Mistral.strategy1 responseText = [] -> Mistral.strategy2 responseText = []).
  { intros H1. destruct (Mistral.strategy2 responseText) as [|x r] eqn:E; [reflexivity|].
    exfalso. apply (@strategy1_finds_pair responseText); [|exact H1].
    apply strategy2_needs_pair. rewrite E. discriminate. }
  assert (H3 : Mistral.strategy1 responseText = [] -> Mistral.strategy3 responseText = []).
  { intros H1. destruct (Mistral.strategy3 responseText) as [|x r] eqn:E; [reflexivity|].
    exfalso. apply (@strategy1_finds_pair responseText); [|exact H1].
    apply strategy3_needs_pair. rewrite E. discriminate. }
  split; [exact H2|]. split; [exact H3|].
  unfold Mistral.recoverJson.
  destruct (Mistral.strategy1 responseText) as [|x r] eqn:E1; [|reflexivity].
  simpl. rewrite (H2 eq_refl). simpl. exact (H3 eq_refl).
Qed.

(** ** The executor on sample operations *)

Example mistral_delays :
  Retry.schedule Mistral.BASE_DELAY Mistral.MAX_DELAY 0 (S Mistral.MAX_RETRIES)
  = [1000; 2000; 4000; 8000; 16000].
Proof. reflexivity. Qed.

Example pixtral_delays :
  Retry.schedule Pixtral.BASE_DELAY Pixtral.MAX_DELAY 0 (S Pixtral.MAX_RETRIES)
  = [2000; 4000; 8000; 16000; 32000].
Proof. reflexivity. Qed.

Example flaky_twice_events :
  sleeps_of (snd (Mistral.executeWithRetry (Sample.flaky 2) (js "OCR") 0%nat))
  = [1000; 2000].
Proof. vm_compute. reflexivity. Qed.

Example flaky_twice_order :
  steps_of (snd (Mistral.executeWithRetry (Sample.flaky 2) (js "OCR") 0%nat))
  = [Called; Slept 1000; Called; Slept 2000; Called].
Proof. vm_compute. reflexivity. Qed.

Lemma executeWithRetry_recovers_witness :
  exists tr,
    Retry.executeWithRetry 5 1000 30000 (Sample.flaky 2) (js "OCR") 0%nat
      = (Return 42, Retry.after_calls (Sample.flaky 2) 3 0%nat, tr)
    /\ attempts_of tr = 3%nat
    /\ steps_of tr
       = Called
         :: flat_map
              (fun i => [Slept (Z.min (1000 * 2 ^ (Z.of_nat i - 1)) 30000); Called])
              (seq 1 2)
    /\ List.length (sleeps_of tr) = 2%nat
    /\ (forall i, (1 <= i <= 2)%nat ->
          nth (i - 1) (sleeps_of tr) 0 = Z.min (1000 * 2 ^ (Z.of_nat i - 1)) 30000)
    /\ (forall i j, (i <= j < 2)%nat ->
          nth i (sleeps_of tr) 0 <= nth j (sleeps_of tr) 0)
    /\ Forall (fun delay => delay <= 30000) (sleeps_of tr).
Proof.
  apply (@executeWithRetry_recovers nat Z 5%nat 1000 30000 (Sample.flaky 2)
           (js "OCR") 0%nat 2%nat 42).
  - lia.
  - lia.
  - intros [|[|i]] Hi; [reflexivity | reflexivity | lia].
  - reflexivity.
Defined.

Lemma executeWithRetry_gives_up_witness :
  exists lastError tr,
    Retry.nth_completion (Sample.flaky 9) 5 0%nat = Throw lastError
    /\ Retry.executeWithRetry 5 1000 30000 (Sample.flaky 9) (js "OCR") 0%nat
       = (Throw (newError
                   (js "OCR" ++ js " failed after " ++ show (Z.of_nat 5 + 1)
                      ++ js " attempts. Last error: " ++ message lastError)),
          Retry.after_calls (Sample.flaky 9) 6 0%nat, tr)
    /\ attempts_of tr = 6%nat
    /\ List.length (sleeps_of tr) = 5%nat.
Proof.
  apply (@executeWithRetry_gives_up nat Z 5%nat 1000 30000 (Sample.flaky 9)
           (js "OCR") 0%nat).
  intros [|[|[|[|[|[|i]]]]]] Hi; try reflexivity. lia.
Defined.

Lemma executeWithRetry_permanent_witness :
  exists tr,
    Retry.executeWithRetry 5 1000 30000 Sample.refused (js "OCR") 0%nat
      = (Throw Sample.denied, Retry.after_calls Sample.refused 1 0%nat, tr)
    /\ attempts_of tr = 1%nat
    /\ sleeps_of tr = [].
Proof.
  apply (@executeWithRetry_permanent nat Z 5%nat 1000 30000 Sample.refused
           (js "OCR") 0%nat Sample.denied).
  - reflexivity.
  - intros H. vm_compute in H. discriminate H.
  - intros md H. injection H as <-. simpl. discriminate.
Defined.

(** ** The order of the recovery strategies *)

Lemma first_nonempty_falsy (candidates : list jsstring) :
  falsy (first_nonempty candidates) = forallb falsy candidates.
Proof.
  induction candidates as [|c rest IH]; [reflexivity|]. simpl.
  destruct (falsy c) eqn:E; [exact IH | simpl; exact E].
Qed.

Lemma mistral_recoverJson_order (responseText : jsstring) :
  Mistral.recoverJson responseText
  = first_nonempty [Mistral.strategy1 responseText; Mistral.strategy2 responseText;
                    Mistral.strategy3 responseText].
Proof.
  unfold Mistral.recoverJson. simpl.
  destruct (Mistral.strategy1 responseText); simpl; [|reflexivity].
  destruct (Mistral.strategy2 responseText); simpl; [|reflexivity].
  destruct (Mistral.strategy3 responseText); reflexivity.
Qed.

Lemma pixtral_recoverJson_order (responseText : jsstring) :
  Pixtral.recoverJson responseText
  = first_nonempty [Pixtral.strategy1 responseText; Pixtral.strategy2 responseText;
                    Pixtral.strategy3 responseText].
Proof.
  unfold Pixtral.recoverJson. simpl.
  destruct (Pixtral.strategy1 responseText); simpl; [|reflexivity].
  destruct (Pixtral.strategy2 responseText); simpl; [|reflexivity].
  destruct (Pixtral.strategy3 responseText); reflexivity.
Qed.

(** C5, as stated, fails for the Pixtral provider: on [{a}{b}] its
    recovery stops at the brace that closes the first one, where the
    stated order starts with the text up to the last closing brace. *)
Lemma pixtral_recovery_differs_from_spec :
  Pixtral.recoverJson (js "{a}{b}") = js "{a}"
  /\ layered_recovery_spec (js "{a}{b}") = js "{a}{b}"
  /\ Pixtral.recoverJson (js "{a}{b}") <> layered_recovery_spec (js "{a}{b}").
Proof.
  split; [reflexivity|]. split; [reflexivity|].
  intros H. vm_compute in H. discriminate H.
Qed.

(** C5, amended. Each provider tries its own three strategies in the
    order of its source, a later one only when the earlier ones produced
    nothing: Mistral the bounds from first [{] to last [}], the balanced
    scan and the pattern [\{[\s\S]*\}]; Pixtral the balanced scan from the
    first [{], the pattern [\{[^}]*\}] and the first object-like line.
    [No valid JSON object found] is thrown exactly when all three produce
    nothing; otherwise the candidate goes to [JSON.parse], and what that
    throws is reported as an invalid JSON response as well. *)
Theorem recovery_strategies_in_order
  (W Json Schema : Type) (P : Platform W Json Schema)
  (responseText : jsstring) (w : W) :
  let mistral := [Mistral.strategy1 responseText; Mistral.strategy2 responseText;
                  Mistral.strategy3 responseText] in
  let pixtral := [Pixtral.strategy1 responseText; Pixtral.strategy2 responseText;
                  Pixtral.strategy3 responseText] in
  Mistral.recoverJson responseText = first_nonempty mistral
  /\ Pixtral.recoverJson responseText = first_nonempty pixtral
  /\ Mistral.parseJson P responseText w
     = (if forallb falsy mistral
        then (Throw (Mistral.invalid_json Mistral.no_json_found), w,
              [EvWarn (js "Failed to parse JSON from Mistral response: " ++ responseText)])
        else match JSON_parse P (first_nonempty mistral) with
             | Return v => (Return v, w, [])
             | Throw parseError =>
                 (Throw (Mistral.invalid_json parseError), w,
                  [EvWarn (js "Failed to parse JSON from Mistral response: "
                             ++ responseText)])
             end)
  /\ Pixtral.parseJson P responseText w
     = (if forallb falsy pixtral
        then (Throw (Pixtral.invalid_json Pixtral.no_json_found), w,
              [EvWarn (js "Failed to parse JSON from Pixtral response: " ++ responseText)])
        else match JSON_parse P (first_nonempty pixtral) with
             | Return v => (Return v, w, [])
             | Throw parseError =>
                 (Throw (Pixtral.invalid_json parseError), w,
                  [EvWarn (js "Failed to parse JSON from Pixtral response: "
                             ++ responseText)])
             end).
Proof.
  intros mistral pixtral.
  pose proof (mistral_recoverJson_order responseText) as Hm.
  pose proof (pixtral_recoverJson_order responseText) as Hp.
  fold mistral in Hm. fold pixtral in Hp.
  split; [exact Hm|]. split; [exact Hp|]. split.
  - unfold Mistral.parseJson, try_catch, bind, console_warn, emit, throw, lift.
    rewrite Hm, <- first_nonempty_falsy.
    destruct (falsy (first_nonempty mistral)); [reflexivity|].
    destruct (JSON_parse P (first_nonempty mistral)); reflexivity.
  - unfold Pixtral.parseJson, try_catch, bind, console_warn, emit, throw, lift.
    rewrite Hp, <- first_nonempty_falsy.
    destruct (falsy (first_nonempty pixtral)); [reflexivity|].
    destruct (JSON_parse P (first_nonempty pixtral)); reflexivity.
Qed.

(** A candidate that [JSON.parse] rejects raises a parse error too, though
    strategy 1 has produced it. *)
Lemma mistral_rejected_candidate_raises
  (W Json Schema : Type) (P : Platform W Json Schema) (w : W) (parseError : Error) :
  JSON_parse P (js "{x}") = Throw parseError ->
  Mistral.strategy1 (js "{x}") = js "{x}"
  /\ Mistral.parseJson P (js "{x}") w
     = (Throw (newError (js "Invalid JSON response: " ++ message parseError)), w,
        [EvWarn (js "Failed to parse JSON from Mistral response: {x}")]).
Proof.
  intros H. split; [reflexivity|].
  unfold Mistral.parseJson, try_catch, bind, console_warn, emit, throw, lift.
  change (Mistral.recoverJson (js "{x}")) with (js "{x}"). cbn [falsy js].
  change (falsy (js "{x}")) with false. cbv iota. rewrite H. reflexivity.
Qed.

Example mistral_strategies :
  Mistral.strategy1 (js "ab {x} cd {y} e") = js "{x} cd {y}"
  /\ Mistral.strategy2 (js "a{{b}c}d}") = js "{{b}c}"
  /\ Mistral.strategy2 (js "}{}") = []
  /\ Mistral.strategy3 (js "a{b}c}d") = js "{b}c}".
Proof. repeat split. Qed.

Example pixtral_strategies :
  Pixtral.strategy1 (js "x{a}{b}") = js "{a}"
  /\ Pixtral.strategy1 (js "x{{a}") = []
  /\ Pixtral.strategy2 (js "x{{a}") = js "{{a}"
  /\ Pixtral.strategy3 (js "  {b} tail  ") = js "{b} tail".
Proof. repeat split. Qed.

(** ** Unsupported operations of the Mistral provider *)

(** C7. [ocr] and [extractFromImage] of the Mistral provider throw the
    unsupported-operation error on every input, at once: the operation is
    never attempted, nothing is logged, nothing sleeps, and the error is
    not one the executor would retry. *)
Theorem mistral_image_operations_throw
  (W Json Schema : Type) (this : Mistral.AWSBedrockMistralProvider)
  (imagePath : jsstring) (schema : Schema) (w : W) :
  Mistral.ocr this imagePath w = (Throw Mistral.unsupported_image, w, [])
  /\ Mistral.extractFromImage Json this imagePath schema w
     = (Throw Mistral.unsupported_image, w, [])
  /\ attempts_of (snd (Mistral.ocr this imagePath w)) = 0%nat
  /\ attempts_of (snd (Mistral.extractFromImage Json this imagePath schema w)) = 0%nat
  /\ sleeps_of (snd (Mistral.ocr this imagePath w)) = []
  /\ sleeps_of (snd (Mistral.extractFromImage Json this imagePath schema w)) = []
  /\ Retry.isThrottling Mistral.unsupported_image = false.
Proof. repeat split. Qed.

(** ** Retry constants of the two Bedrock providers *)

(** C3. The constants of the Mistral provider are 5, 1000 and 30000; those
    of the Pixtral provider are 5, 2000 and 60000, so that its first sleep
    lasts 2000 ms and its sleeps are capped at 60000 ms. *)
Theorem retry_constants :
  (Mistral.MAX_RETRIES, Mistral.BASE_DELAY, Mistral.MAX_DELAY) = (5%nat, 1000, 30000)
  /\ (Pixtral.MAX_RETRIES, Pixtral.BASE_DELAY, Pixtral.MAX_DELAY) = (5%nat, 2000, 60000)
  /\ Retry.backoff Pixtral.BASE_DELAY Pixtral.MAX_DELAY 1 = 2000
  /\ Retry.backoff Pixtral.BASE_DELAY Pixtral.MAX_DELAY 5 = 32000.
Proof. repeat split. Qed.

(** ** Usage records *)

Section MonadFacts.

Variable W : Type.

Lemma bind_returns {A B} (m : M W A) (k : A -> M W B) (w w' : W) (v : B)
  (tr : list event) :
  bind m k w = (Return v, w', tr) ->
  exists a w1 t1 t2, m w = (Return a, w1, t1) /\ k a w1 = (Return v, w', t2).
Proof.
  unfold bind. destruct (m w) as [[[a|e] w1] t1]; [|discriminate].
  destruct (k a w1) as [[r w2] t2] eqn:E. intros H. injection H as -> -> _.
  now exists a, w1, t1, t2.
Qed.

Lemma ret_returns {A} (a v : A) (w w' : W) (tr : list event) :
  ret a w = (Return v, w', tr) -> a = v.
Proof. unfold ret. congruence. Qed.

Lemma lift_returns {A} (r : outcome A) (v : A) (w w' : W) (tr : list event) :
  lift r w = (Return v, w', tr) -> r = Return v.
Proof. unfold lift. congruence. Qed.

Lemma throw_never_returns {A} (e : Error) (v : A) (w w' : W) (tr : list event) :
  throw e w = (Return v, w', tr) -> False.
Proof. unfold throw. discriminate. Qed.

(** What [executeWithRetry] resolves to is what some call of the
    operation resolved to. *)
Lemma executeWithRetry_returns {T} (MAX_RETRIES : nat) (BASE_DELAY MAX_DELAY : Z)
  (op : operation W T) (operationName : jsstring) (w w' : W) (v : T)
  (tr : list event) :
  Retry.executeWithRetry MAX_RETRIES BASE_DELAY MAX_DELAY op operationName w
    = (Return v, w', tr) ->
  exists w0 w1 t, op w0 = (Return v, w1, t).
Proof.
  unfold Retry.executeWithRetry.
  generalize (S MAX_RETRIES) as remaining, 0%nat as attempt, (@None Error) as lastError.
  intros remaining. revert w w' tr.
  induction remaining as [|remaining IH]; intros w w' tr attempt lastError H.
  - simpl in H. destruct lastError; discriminate H.
  - rewrite retry_loop_step in H.
    destruct (op w) as [[[a|e] w1] t] eqn:E.
    + injection H as -> _ _. now exists w, w1, t.
    + destruct (Retry.isThrottling e); [|discriminate H].
      destruct (Retry.retry_loop MAX_RETRIES BASE_DELAY MAX_DELAY op operationName
                  remaining (S attempt) (Some e) w1) as [[r w2] t2] eqn:E2.
      injection H as -> -> _. eapply IH. exact E2.
Qed.

End MonadFacts.

Ltac returns_inv H :=
  repeat match type of H with
         | bind _ _ _ = (Return _, _, _) =>
             let a := fresh "a" in
             let w1 := fresh "w" in
             let t1 := fresh "t" in
             let t2 := fresh "t" in
             let H1 := fresh "Hstep" in
             apply bind_returns in H; destruct H as (a & w1 & t1 & t2 & H1 & H);
             clear H1
         end.

Lemma mkUsage_consistent (start end_ tokensIn tokensOut costIn costOut : float) :
  usage_consistent (mkUsage start end_ tokensIn tokensOut costIn costOut).
Proof. split; reflexivity. Qed.

Section UsageFacts.

Variables W Json Schema : Type.
Variable P : Platform W Json Schema.
Variable FINETUNED_MODELS : list jsstring.

Lemma mistral_extractFromText_operation_usage
  (this : Mistral.AWSBedrockMistralProvider) (text : jsstring) (schema : Schema)
  (w w' : W) (r : ExtractionResult Json) (tr : list event) :
  Mistral.extractFromText_operation P FINETUNED_MODELS this text schema w
    = (Return r, w', tr) ->
  usage_consistent (usage r).
Proof.
  unfold Mistral.extractFromText_operation. intros H. returns_inv H.
  apply ret_returns in H. subst r. apply mkUsage_consistent.
Qed.

Lemma pixtral_usageOf_consistent (this : Pixtral.AWSBedrockPixtralProvider)
  (start end_ : float) (response : BedrockResponse) (w w' : W) (u : Usage)
  (tr : list event) :
  Pixtral.usageOf FINETUNED_MODELS this start end_ response w = (Return u, w', tr) ->
  usage_consistent u.
Proof.
  unfold Pixtral.usageOf. intros H. returns_inv H.
  apply ret_returns in H. subst u. apply mkUsage_consistent.
Qed.

Lemma pixtral_ocr_operation_usage
  (this : Pixtral.AWSBedrockPixtralProvider) (imagePath : jsstring)
  (w w' : W) (r : OcrResult) (tr : list event) :
  Pixtral.ocr_operation P FINETUNED_MODELS this imagePath w = (Return r, w', tr) ->
  usage_consistent (ocr_usage r).
Proof.
  unfold Pixtral.ocr_operation. intros H.
  do 4 (apply bind_returns in H; destruct H as (? & ? & ? & ? & _ & H)).
  apply bind_returns in H. destruct H as (u & ? & ? & ? & Hu & H).
  apply ret_returns in H. subst r. simpl.
  eapply pixtral_usageOf_consistent. exact Hu.
Qed.

Lemma pixtral_extractFromText_operation_usage
  (this : Pixtral.AWSBedrockPixtralProvider) (text : jsstring) (schema : Schema)
  (w w' : W) (r : ExtractionResult Json) (tr : list event) :
  Pixtral.extractFromText_operation P FINETUNED_MODELS this text schema w
    = (Return r, w', tr) ->
  usage_consistent (usage r).
Proof.
  unfold Pixtral.extractFromText_operation. intros H.
  do 4 (apply bind_returns in H; destruct H as (? & ? & ? & ? & _ & H)).
  apply bind_returns in H. destruct H as (u & ? & ? & ? & Hu & H).
  apply ret_returns in H. subst r. simpl.
  eapply pixtral_usageOf_consistent. exact Hu.
Qed.

Lemma pixtral_extractFromImage_operation_usage
  (this : Pixtral.AWSBedrockPixtralProvider) (imagePath : jsstring) (schema : Schema)
  (w w' : W) (r : ExtractionResult Json) (tr : list event) :
  Pixtral.extractFromImage_operation P FINETUNED_MODELS this imagePath schema w
    = (Return r, w', tr) ->
  usage_consistent (usage r).
Proof.
  unfold Pixtral.extractFromImage_operation. intros H.
  do 5 (apply bind_returns in H; destruct H as (? & ? & ? & ? & _ & H)).
  apply bind_returns in H. destruct H as (u & ? & ? & ? & Hu & H).
  apply ret_returns in H. subst r. simpl.
  eapply pixtral_usageOf_consistent. exact Hu.
Qed.

Lemma maritaca_ocr_usage
  (this : Maritaca.MaritacaProvider) (imagePath : jsstring)
  (w w' : W) (r : OcrResult) (tr : list event) :
  Maritaca.ocr P FINETUNED_MODELS this imagePath w = (Return r, w', tr) ->
  usage_consistent (ocr_usage r).
Proof.
  unfold Maritaca.ocr. intros H.
  do 2 (apply bind_returns in H; destruct H as (? & ? & ? & ? & _ & H)).
  apply bind_returns in H. destruct H as (? & ? & ? & ? & _ & H).
  do 2 (apply bind_returns in H; destruct H as (? & ? & ? & ? & _ & H)).
  match type of H with
  | context [choices ?resp] => destruct (choices resp) as [|content rest]
  end.
  - now apply throw_never_returns in H.
  - apply ret_returns in H. subst r. apply mkUsage_consistent.
Qed.

(** C8. The usage record of every provider call that succeeds has
    [totalTokens = inputTokens + outputTokens] and
    [totalCost = inputCost + outputCost]. *)
Theorem returned_usage_consistent (call : ProviderCall Schema) (w w' : W)
  (u : Usage) (tr : list event) :
  usage_of_call P FINETUNED_MODELS call w = (Return u, w', tr) ->
  usage_consistent u.
Proof.
  intros H. destruct call; simpl in H;
    apply bind_returns in H; destruct H as (r & w1 & t1 & t2 & Hcall & H);
    apply ret_returns in H; subst u.
  - now apply throw_never_returns in Hcall.
  - apply executeWithRetry_returns in Hcall. destruct Hcall as (w0 & w2 & t & Hop).
    eapply mistral_extractFromText_operation_usage. exact Hop.
  - now apply throw_never_returns in Hcall.
  - apply executeWithRetry_returns in Hcall. destruct Hcall as (w0 & w2 & t & Hop).
    eapply pixtral_ocr_operation_usage. exact Hop.
  - apply executeWithRetry_returns in Hcall. destruct Hcall as (w0 & w2 & t & Hop).
    eapply pixtral_extractFromText_operation_usage. exact Hop.
  - apply executeWithRetry_returns in Hcall. destruct Hcall as (w0 & w2 & t & Hop).
    eapply pixtral_extractFromImage_operation_usage. exact Hop.
  - eapply maritaca_ocr_usage. exact Hcall.
Qed.

End UsageFacts.

Lemma returned_usage_consistent_witness :
  exists u tr,
    usage_of_call Sample.platform []
      (MistralExtractFromText Sample.mixtral (js "Invoice 17, total 40") tt) tt
      = (Return u, tt, tr)
    /\ usage_consistent u.
Proof.
  eexists. eexists. split.
  - vm_compute. reflexivity.
  - eapply (@returned_usage_consistent unit jsstring unit Sample.platform []
              (MistralExtractFromText Sample.mixtral (js "Invoice 17, total 40") tt)
              tt tt).
    vm_compute. reflexivity.
Defined.

(** ** The model registry *)

Lemma includes_In (model : jsstring) (l : list jsstring) :
  Registry.includes model l = true <-> In model l.
Proof.
  unfold Registry.includes. rewrite existsb_exists. split.
  - intros (x & Hx & E). apply str_eqb_eq in E. now subst.
  - intros H. exists model. split; [assumption | apply str_eqb_refl].
Qed.

Lemma listedb_listed (o : Registry.store) (model : jsstring) :
  listedb o model = true <-> Registry.listed o model.
Proof.
  unfold listedb, Registry.listed. rewrite existsb_exists. split.
  - intros ([key group] & Hin & Hinc). exists key, group.
    split; [assumption | now apply includes_In].
  - intros (key & group & Hin & Hm). exists (key, group).
    split; [assumption | now apply includes_In].
Qed.

(** The object once [openaiFt] has been assigned. *)
Lemma assign_openaiFt_fresh :
  Registry.assign (js "openaiFt")
    {| Registry.models := Registry.FINETUNED_MODELS;
       Registry.provider := Some Registry.LLMProvider |}
    Registry.MODEL_PROVIDERS
  = Registry.MODEL_PROVIDERS
      ++ [(js "openaiFt",
           {| Registry.models := Registry.FINETUNED_MODELS;
              Registry.provider := Some Registry.LLMProvider |})].
Proof. reflexivity. Qed.

Lemma assign_openaiFt_again :
  Registry.assign (js "openaiFt")
    {| Registry.models := Registry.FINETUNED_MODELS;
       Registry.provider := Some Registry.LLMProvider |}
    (Registry.MODEL_PROVIDERS
       ++ [(js "openaiFt",
            {| Registry.models := Registry.FINETUNED_MODELS;
               Registry.provider := Some Registry.LLMProvider |})])
  = Registry.MODEL_PROVIDERS
      ++ [(js "openaiFt",
           {| Registry.models := Registry.FINETUNED_MODELS;
              Registry.provider := Some Registry.LLMProvider |})].
Proof. reflexivity. Qed.

Section RegistryFacts.

Variable Provider : Type.
Variable construct : Registry.ProviderClass -> jsstring -> outcome Provider.

Local Abbreviation openaiFt :=
  (js "openaiFt",
   {| Registry.models := Registry.FINETUNED_MODELS;
      Registry.provider := Some Registry.LLMProvider |}).

Lemma getModelProvider_store (o : Registry.store) (model : jsstring) :
  snd (Registry.getModelProvider construct o model)
  = Registry.assign (fst openaiFt) (snd openaiFt) o.
Proof.
  unfold Registry.getModelProvider. simpl fst. simpl snd.
  destruct (find _ _) as [g|]; [|reflexivity].
  destruct (str_eqb model (js "ground-truth")); [reflexivity|].
  destruct (Registry.provider g) as [cls|]; [|reflexivity].
  destruct (construct cls model); reflexivity.
Qed.

(** Whatever calls came before, a call works on the 21 groups of the
    source followed by [openaiFt]. *)
Lemma store_after_assigned (earlier : list jsstring) :
  Registry.assign (fst openaiFt) (snd openaiFt)
    (Registry.store_after construct earlier Registry.MODEL_PROVIDERS)
  = Registry.MODEL_PROVIDERS ++ [openaiFt].
Proof.
  assert (H : forall o,
             o = Registry.MODEL_PROVIDERS \/ o = Registry.MODEL_PROVIDERS ++ [openaiFt] ->
             Registry.assign (fst openaiFt) (snd openaiFt)
               (Registry.store_after construct earlier o)
             = Registry.MODEL_PROVIDERS ++ [openaiFt]).
  { induction earlier as [|model rest IH]; intros o Ho.
    - simpl Registry.store_after.
      destruct Ho as [-> | ->];
        [exact assign_openaiFt_fresh | exact assign_openaiFt_again].
    - simpl Registry.store_after. apply IH. right.
      rewrite getModelProvider_store.
      destruct Ho as [-> | ->];
        [exact assign_openaiFt_fresh | exact assign_openaiFt_again]. }
  apply H. now left.
Qed.

(** The completion of a call, read off the group found. *)
Lemma getModelProvider_completion (earlier : list jsstring) (model : jsstring) :
  fst (Registry.getModelProvider construct
         (Registry.store_after construct earlier Registry.MODEL_PROVIDERS) model)
  = match find (fun group => Registry.includes model (Registry.models group))
            (List.map snd (Registry.MODEL_PROVIDERS ++ [openaiFt])) with
    | Some foundProvider =>
        if str_eqb model (js "ground-truth") then Return None
        else match Registry.provider foundProvider with
             | Some cls =>
                 match construct cls model with
                 | Return p => Return (Some p)
                 | Throw e => Throw e
                 end
             | None => Throw Registry.not_a_constructor
             end
    | None => Throw (Registry.not_supported model)
    end.
Proof.
  unfold Registry.getModelProvider.
  pose proof (store_after_assigned earlier) as H. simpl fst in H. simpl snd in H.
  rewrite H.
  destruct (find _ _) as [g|]; [|reflexivity].
  destruct (str_eqb model (js "ground-truth")); [reflexivity|].
  destruct (Registry.provider g) as [cls|]; [|reflexivity].
  destruct (construct cls model); reflexivity.
Qed.

Lemma find_listed (model : jsstring) :
  Registry.listed Registry.MODEL_PROVIDERS model <->
  exists group,
    find (fun group => Registry.includes model (Registry.models group))
      (List.map snd (Registry.MODEL_PROVIDERS ++ [openaiFt])) = Some group.
Proof.
  split.
  - intros (key & group & Hin & Hm).
    destruct (find _ _) as [g|] eqn:E; [now exists g|]. exfalso.
    assert (Hg : In group (List.map snd (Registry.MODEL_PROVIDERS ++ [openaiFt]))).
    { apply in_map_iff. exists (key, group). split; [reflexivity|].
      apply in_or_app. now left. }
    pose proof (find_none _ _ E group Hg) as Hnone. simpl in Hnone.
    apply includes_In in Hm. congruence.
  - intros (group & E). apply find_some in E. destruct E as [Hin Hinc].
    apply in_map_iff in Hin. destruct Hin as ([key g] & <- & Hin).
    apply in_app_or in Hin. destruct Hin as [Hin | [Hin | []]].
    + exists key, g. split; [assumption | now apply includes_In].
    + injection Hin as <- <-. simpl in Hinc. discriminate.
Qed.

(** C6. A model identifier that is in no group's model list makes
    [getModelProvider] throw [Model '...' is not supported.], whatever
    calls came before; in particular no provider is returned. *)
Theorem getModelProvider_unlisted (earlier : list jsstring) (model : jsstring) :
  ~ Registry.listed Registry.MODEL_PROVIDERS model ->
  fst (Registry.getModelProvider construct
         (Registry.store_after construct earlier Registry.MODEL_PROVIDERS) model)
  = Throw (newError (js "Model '" ++ model ++ js "' is not supported."))
  /\ forall p : option Provider,
       fst (Registry.getModelProvider construct
              (Registry.store_after construct earlier Registry.MODEL_PROVIDERS) model)
       <> Return p.
Proof.
  intros Hnot.
  assert (H : fst (Registry.getModelProvider construct
                     (Registry.store_after construct earlier Registry.MODEL_PROVIDERS)
                     model)
              = Throw (newError (js "Model '" ++ model ++ js "' is not supported."))).
  { rewrite getModelProvider_completion.
    destruct (find _ _) as [g|] eqn:E; [|reflexivity].
    exfalso. apply Hnot. apply find_listed. now exists g. }
  split; [exact H|]. intros p. rewrite H. discriminate.
Qed.

(** Only the [groundTruth] group comes without a provider class, and it
    lists nothing but [ground-truth]. *)
Lemma only_groundTruth_without_provider (group : Registry.Group) :
  In group (List.map snd (Registry.MODEL_PROVIDERS ++ [openaiFt])) ->
  Registry.provider group = None ->
  Registry.models group = [js "ground-truth"].
Proof.
  simpl. intros H Hnone.
  repeat (destruct H as [<- | H]; [try discriminate Hnone; reflexivity|]).
  contradiction.
Qed.

(** C10. [getModelProvider('ground-truth')] returns [undefined] without
    constructing anything and without throwing, although [ground-truth]
    is listed; for every other listed identifier the class of its group
    is constructed and the call completes as the constructor does, so
    [ground-truth] is the only listed identifier for which [undefined]
    comes back. *)
Theorem getModelProvider_ground_truth (earlier : list jsstring) :
  Registry.listed Registry.MODEL_PROVIDERS (js "ground-truth")
  /\ fst (Registry.getModelProvider construct
            (Registry.store_after construct earlier Registry.MODEL_PROVIDERS)
            (js "ground-truth"))
     = Return None
  /\ (forall model,
        Registry.listed Registry.MODEL_PROVIDERS model ->
        model <> js "ground-truth" ->
        exists cls,
          fst (Registry.getModelProvider construct
                 (Registry.store_after construct earlier Registry.MODEL_PROVIDERS) model)
          = match construct cls model with
            | Return p => Return (Some p)
            | Throw e => Throw e
            end)
  /\ (forall model,
        Registry.listed Registry.MODEL_PROVIDERS model ->
        (fst (Registry.getModelProvider construct
                (Registry.store_after construct earlier Registry.MODEL_PROVIDERS) model)
         = Return None
         <-> model = js "ground-truth")).
Proof.
  assert (Hgt : fst (Registry.getModelProvider construct
                       (Registry.store_after construct earlier Registry.MODEL_PROVIDERS)
                       (js "ground-truth")) = Return None).
  { rewrite getModelProvider_completion. reflexivity. }
  assert (Hother : forall model,
             Registry.listed Registry.MODEL_PROVIDERS model ->
             model <> js "ground-truth" ->
             exists cls,
               fst (Registry.getModelProvider construct
                      (Registry.store_after construct earlier Registry.MODEL_PROVIDERS)
                      model)
               = match construct cls model with
                 | Return p => Return (Some p)
                 | Throw e => Throw e
                 end).
  { intros model Hlisted Hne. rewrite getModelProvider_completion.
    apply find_listed in Hlisted. destruct Hlisted as (g & E). rewrite E.
    destruct (str_eqb model (js "ground-truth")) eqn:Egt;
      [apply str_eqb_eq in Egt; contradiction|].
    apply find_some in E. destruct E as [Hin Hinc].
    destruct (Registry.provider g) as [cls|] eqn:Ep; [now exists cls|].
    exfalso. apply Hne.
    rewrite (only_groundTruth_without_provider Hin Ep) in Hinc.
    apply includes_In in Hinc. destruct Hinc as [<- | []]. reflexivity. }
  split; [apply listedb_listed; reflexivity|].
  split; [exact Hgt|]. split; [exact Hother|].
  intros model Hlisted. split.
  - intros Hnone.
    destruct (str_eqb model (js "ground-truth")) eqn:Egt;
      [now apply str_eqb_eq in Egt|].
    assert (Hne : model <> js "ground-truth").
    { intros ->. rewrite str_eqb_refl in Egt. discriminate. }
    destruct (Hother model Hlisted Hne) as (cls & Hcls).
    rewrite Hcls in Hnone. destruct (construct cls model); discriminate.
  - intros ->. exact Hgt.
Qed.

End RegistryFacts.


Example getModelProvider_gpt4o :
  fst (Registry.getModelProvider Sample.construct Registry.MODEL_PROVIDERS (js "gpt-4o"))
  = Return (Some (Registry.LLMProvider, js "gpt-4o")).
Proof. reflexivity. Qed.

Example getModelProvider_mixtral :
  fst (Registry.getModelProvider Sample.construct Registry.MODEL_PROVIDERS
         (js "mistral.mixtral-8x7b-instruct-v0:1"))
  = Return (Some (Registry.AWSBedrockMistralProvider,
                  js "mistral.mixtral-8x7b-instruct-v0:1")).
Proof. reflexivity. Qed.

Lemma getModelProvider_unlisted_witness :
  fst (Registry.getModelProvider Sample.construct
         (Registry.store_after Sample.construct [js "gpt-4o"] Registry.MODEL_PROVIDERS)
         (js "gpt-5"))
  = Throw (newError (js "Model '" ++ js "gpt-5" ++ js "' is not supported."))
  /\ forall p : option (Registry.ProviderClass * jsstring),
       fst (Registry.getModelProvider Sample.construct
              (Registry.store_after Sample.construct [js "gpt-4o"]
                 Registry.MODEL_PROVIDERS)
              (js "gpt-5"))
       <> Return p.
Proof.
  apply (@getModelProvider_unlisted _ Sample.construct [js "gpt-4o"] (js "gpt-5")).
  intros H. apply listedb_listed in H. vm_compute in H. discriminate H.
Defined.

Lemma getModelProvider_ground_truth_witness :
  fst (Registry.getModelProvider Sample.construct Registry.MODEL_PROVIDERS
         (js "ground-truth"))
  = Return None
  /\ exists cls,
       fst (Registry.getModelProvider Sample.construct Registry.MODEL_PROVIDERS
              (js "sabia-3"))
       = match Sample.construct cls (js "sabia-3") with
         | Return p => Return (Some p)
         | Throw e => Throw e
         end.
Proof.
  destruct (@getModelProvider_ground_truth _ Sample.construct []) as (_ & H2 & H3 & _).
  split; [exact H2|].
  apply (H3 (js "sabia-3")).
  - apply listedb_listed. vm_compute. reflexivity.
  - intros H. vm_compute in H. discriminate H.
Defined.

Lemma mistral_recovery_is_strategy1_witness :
  Mistral.strategy2 (js "} closed before { opened") = []
  /\ Mistral.strategy3 (js "} closed before { opened") = []
  /\ Mistral.recoverJson (js "see {a} and {b}") = js "{a} and {b}".
Proof.
  destruct (mistral_recovery_is_strategy1 (js "} closed before { opened"))
    as (H2 & H3 & _).
  destruct (mistral_recovery_is_strategy1 (js "see {a} and {b}")) as (_ & _ & H).
  split; [apply H2; reflexivity|]. split; [apply H3; reflexivity|].
  rewrite H. reflexivity.
Defined.

(* ================================================================== *)
(** * Further properties *)
(* ================================================================== *)

(** ** The retry executor on an arbitrary operation *)

Ltac shape_done :=
  repeat split; try lia; try reflexivity;
  try (now rewrite ?app_nil_r); try (intros; lia).

Section RetryShape.

Variables W T : Type.
Variable MAX_RETRIES : nat.
Variables BASE_DELAY MAX_DELAY : Z.
Variable op : operation W T.
Variable operationName : jsstring.

Local Abbreviation retry_loop :=
  (Retry.retry_loop MAX_RETRIES BASE_DELAY MAX_DELAY op operationName).
Local Abbreviation executeWithRetry :=
  (Retry.executeWithRetry MAX_RETRIES BASE_DELAY MAX_DELAY op operationName).
Local Abbreviation backoff := (Retry.backoff BASE_DELAY MAX_DELAY).
Local Abbreviation schedule := (Retry.schedule BASE_DELAY MAX_DELAY).
Local Abbreviation exhausted :=
  (Retry.exhausted_message MAX_RETRIES operationName).

(** Every run of the loop: how many calls it makes, what it sleeps, where
    it leaves the outside, and how its completion follows from the
    completion of the last call. *)
Lemma retry_loop_shape (remaining : nat) :
  forall (attempt : nat) (lastError : option Error) (w : W),
  exists n r w' tr,
    retry_loop (S remaining) attempt lastError w = (r, w', tr)
    /\ (1 <= n <= S remaining)%nat
    /\ attempts_of tr = n
    /\ sleeps_of tr = schedule attempt n
    /\ w' = Retry.after_calls op n w
    /\ (forall i, (i < n - 1)%nat ->
          Retry.fails_transiently (Retry.nth_completion op i w))
    /\ match Retry.nth_completion op (n - 1) w with
       | Return v => r = Return v
       | Throw e =>
           if Retry.isThrottling e
           then n = S remaining /\ r = Throw (newError (exhausted (message e)))
           else r = Throw e
       end.
Proof.
  induction remaining as [|remaining IH]; intros attempt lastError w;
    rewrite retry_loop_step.
  - exists 1%nat. unfold Retry.nth_completion. cbn [Retry.after_calls Nat.sub].
    destruct (op w) as [[[v|e] w1] t]; cbn [fst snd].
    + do 3 eexists. split; [reflexivity|].
      rewrite attempts_of_app, sleeps_of_app, attempts_of_prologue, sleeps_of_prologue.
      shape_done.
    + destruct (Retry.isThrottling e) eqn:E.
      * cbn [Retry.retry_loop]. unfold throw. do 3 eexists. split; [reflexivity|].
        rewrite !attempts_of_app, !sleeps_of_app, attempts_of_prologue,
          sleeps_of_prologue, attempts_of_epilogue, sleeps_of_epilogue.
        shape_done.
      * do 3 eexists. split; [reflexivity|].
        rewrite !attempts_of_app, !sleeps_of_app, attempts_of_prologue,
          sleeps_of_prologue.
        shape_done.
  - destruct (op w) as [[[v|e] w1] t] eqn:Eop.
    + exists 1%nat. unfold Retry.nth_completion. cbn [Retry.after_calls Nat.sub].
      rewrite Eop. cbn [fst snd]. do 3 eexists. split; [reflexivity|].
      rewrite attempts_of_app, sleeps_of_app, attempts_of_prologue, sleeps_of_prologue.
      shape_done.
    + destruct (Retry.isThrottling e) eqn:E.
      * destruct (IH (S attempt) (Some e) w1)
          as (n & r & w' & tr & Heq & Hn & Hatt & Hsl & Hw & Hfail & Hlast).
        rewrite Heq. exists (S n), r, w'. eexists. split; [reflexivity|].
        rewrite !attempts_of_app, !sleeps_of_app, attempts_of_prologue,
          sleeps_of_prologue, attempts_of_epilogue, sleeps_of_epilogue, Hatt, Hsl.
        assert (Hw1 : w1 = snd (fst (op w))) by now rewrite Eop.
        split; [lia|]. split; [reflexivity|]. split.
        { change (sleeps_of [EvInvoke t]) with (@nil Z).
          rewrite app_nil_r. simpl app. now rewrite (schedule_S _ _ attempt n). }
        split; [cbn [Retry.after_calls]; now rewrite <- Hw1|]. split.
        { intros [|i] Hi.
          - unfold Retry.nth_completion. cbn [Retry.after_calls]. rewrite Eop.
            exact E.
          - rewrite nth_completion_S, <- Hw1. apply Hfail. lia. }
        replace (S n - 1)%nat with (S (n - 1)) by lia.
        rewrite nth_completion_S, <- Hw1.
        destruct (Retry.nth_completion op (n - 1) w1) as [v|e']; [exact Hlast|].
        destruct (Retry.isThrottling e'); [|exact Hlast].
        destruct Hlast as [-> ->]. split; reflexivity.
      * exists 1%nat. unfold Retry.nth_completion. cbn [Retry.after_calls Nat.sub].
        rewrite Eop. cbn [fst snd]. rewrite E. do 3 eexists. split; [reflexivity|].
        rewrite !attempts_of_app, !sleeps_of_app, attempts_of_prologue,
          sleeps_of_prologue.
        shape_done.
Qed.

(** X3. Whatever the operation does, [executeWithRetry] calls it at least
    once and at most [MAX_RETRIES + 1] times, sleeps once right before
    each call but the first, for the scheduled delays, never after the
    last call, and leaves the outside as these calls alone left it. *)
Theorem executeWithRetry_bounded (w : W) :
  let n := attempts_of (snd (executeWithRetry w)) in
  (1 <= n <= S MAX_RETRIES)%nat
  /\ steps_of (snd (executeWithRetry w))
     = Called
       :: flat_map
            (fun i =>
               [Slept (Z.min (BASE_DELAY * 2 ^ (Z.of_nat i - 1)) MAX_DELAY); Called])
            (seq 1 (n - 1))
  /\ sleeps_of (snd (executeWithRetry w)) = List.map backoff (seq 1 (n - 1))
  /\ snd (fst (executeWithRetry w)) = Retry.after_calls op n w.
Proof.
  unfold Retry.executeWithRetry.
  pose proof (@retry_loop_steps W T MAX_RETRIES BASE_DELAY MAX_DELAY op operationName
                (S MAX_RETRIES) 0%nat None w) as Hsteps.
  destruct (retry_loop_shape MAX_RETRIES 0 None w)
    as (n & r & w' & tr & Heq & Hn & Hatt & Hsl & Hw & _).
  rewrite Heq in *. cbn [fst snd] in *. rewrite Hatt in *. rewrite Hsl.
  split; [exact Hn|].
  destruct n as [|n]; [lia|].
  replace (S n - 1)%nat with n by lia.
  split; [rewrite Hsteps; apply retry_steps_0|].
  split; [|exact Hw].
  apply (schedule_0 BASE_DELAY MAX_DELAY).
Qed.

(** X4. The completion of [executeWithRetry] is decided by the last call
    it made: a value is handed on, an error that is not a throttling error
    is rethrown as it is, and a throttling error only appears wrapped in
    the final error, after [MAX_RETRIES + 1] calls. Every earlier call
    ended in a throttling error. *)
Theorem executeWithRetry_outcome (w : W) :
  let n := attempts_of (snd (executeWithRetry w)) in
  (forall i, (i < n - 1)%nat ->
     Retry.fails_transiently (Retry.nth_completion op i w))
  /\ match Retry.nth_completion op (n - 1) w with
     | Return v => fst (fst (executeWithRetry w)) = Return v
     | Throw e =>
         if Retry.isThrottling e
         then n = S MAX_RETRIES
              /\ fst (fst (executeWithRetry w))
                 = Throw (newError
                            (operationName ++ js " failed after "
                               ++ show (Z.of_nat MAX_RETRIES + 1)
                               ++ js " attempts. Last error: " ++ message e))
         else fst (fst (executeWithRetry w)) = Throw e
     end.
Proof.
  unfold Retry.executeWithRetry.
  destruct (retry_loop_shape MAX_RETRIES 0 None w)
    as (n & r & w' & tr & Heq & Hn & Hatt & Hsl & Hw & Hfail & Hlast).
  rewrite Heq. cbn [fst snd]. rewrite Hatt. split; [exact Hfail|exact Hlast].
Qed.

Lemma total_app (a b : list Z) : total (a ++ b) = total a + total b.
Proof.
  unfold total. induction a as [|x a IH]; simpl; [reflexivity|]. rewrite IH. lia.
Qed.

Lemma total_backoff_capped (a n : nat) :
  total (List.map backoff (seq a n)) <= Z.of_nat n * MAX_DELAY.
Proof.
  revert a. induction n as [|n IH]; intros a; [simpl; lia|].
  cbn [seq List.map]. unfold total in *. cbn [fold_right].
  specialize (IH (S a)).
  pose proof (backoff_capped BASE_DELAY MAX_DELAY a). lia.
Qed.

Lemma total_backoff_geometric (a n : nat) :
  0 <= BASE_DELAY -> (1 <= a)%nat ->
  total (List.map backoff (seq a n))
  <= BASE_DELAY * (2 ^ (Z.of_nat (a + n) - 1) - 2 ^ (Z.of_nat a - 1)).
Proof.
  intros Hbase. revert a. induction n as [|n IH]; intros a Ha.
  - simpl. replace (a + 0)%nat with a by lia. lia.
  - cbn [seq List.map]. unfold total in *. cbn [fold_right].
    specialize (IH (S a) ltac:(lia)).
    assert (Hb : backoff a <= BASE_DELAY * 2 ^ (Z.of_nat a - 1)) by apply Z.le_min_l.
    replace (Z.of_nat (S a + n) - 1) with (Z.of_nat (a + S n) - 1) in IH by lia.
    replace (Z.of_nat (S a) - 1) with (Z.succ (Z.of_nat a - 1)) in IH by lia.
    rewrite Z.pow_succ_r in IH by lia.
    set (p := 2 ^ (Z.of_nat a - 1)) in *.
    set (q := 2 ^ (Z.of_nat (a + S n) - 1)) in *.
    nia.
Qed.

(** X5. With non-negative constants, all the sleeps of one run together
    last at most [MAX_RETRIES * MAX_DELAY] and at most
    [BASE_DELAY * (2^MAX_RETRIES - 1)]. *)
Theorem executeWithRetry_total_sleep (w : W) :
  0 <= BASE_DELAY -> 0 <= MAX_DELAY ->
  total (sleeps_of (snd (executeWithRetry w))) <= Z.of_nat MAX_RETRIES * MAX_DELAY
  /\ total (sleeps_of (snd (executeWithRetry w)))
     <= BASE_DELAY * (2 ^ Z.of_nat MAX_RETRIES - 1).
Proof.
  intros Hbase Hmax. unfold Retry.executeWithRetry.
  destruct (retry_loop_shape MAX_RETRIES 0 None w)
    as (n & r & w' & tr & Heq & Hn & Hatt & Hsl & _).
  rewrite Heq. cbn [snd]. rewrite Hsl.
  destruct n as [|m]; [lia|]. rewrite (schedule_0 BASE_DELAY MAX_DELAY).
  replace m with (S m - 1)%nat by lia. set (n := S m) in *.
  split.
  - pose proof (total_backoff_capped 1 (n - 1)). nia.
  - pose proof (@total_backoff_geometric 1 (n - 1) Hbase ltac:(lia)) as H.
    replace (Z.of_nat 1 - 1) with 0 in H by lia.
    replace (Z.of_nat (1 + (n - 1)) - 1) with (Z.of_nat (n - 1)) in H by lia.
    assert (Hpow : 2 ^ Z.of_nat (n - 1) <= 2 ^ Z.of_nat MAX_RETRIES)
      by (apply Z.pow_le_mono_r; lia).
    rewrite Z.pow_0_r in H. nia.
Qed.

(** X1. The last permitted attempt counts: an operation throttled exactly
    [MAX_RETRIES] times that then succeeds has its success returned, after
    [MAX_RETRIES + 1] calls and [MAX_RETRIES] sleeps. *)
Theorem executeWithRetry_last_attempt (w : W) (v : T) :
  (forall i, (i < MAX_RETRIES)%nat ->
     Retry.fails_transiently (Retry.nth_completion op i w)) ->
  Retry.nth_completion op MAX_RETRIES w = Return v ->
  exists tr,
    executeWithRetry w = (Return v, Retry.after_calls op (S MAX_RETRIES) w, tr)
    /\ attempts_of tr = S MAX_RETRIES
    /\ sleeps_of tr = List.map backoff (seq 1 MAX_RETRIES).
Proof.
  intros Hfail Hlast.
  destruct (@retry_loop_settles W T MAX_RETRIES BASE_DELAY MAX_DELAY op operationName
              MAX_RETRIES (S MAX_RETRIES) 0%nat None w (Return v))
    as (tr & Heq & Hatt & Hsl); [lia | assumption | assumption | now simpl |].
  rewrite schedule_0 in Hsl. now exists tr.
Qed.

(** X2. A permanent error that follows [j] throttling errors is rethrown
    as it is, unwrapped, after [j + 1] calls; only the [j] sleeps before
    the retries have happened, each right before its retry, and none
    after the call that failed for good. *)
Theorem executeWithRetry_permanent_after_transient (w : W) (j : nat) (error : Error) :
  (j <= MAX_RETRIES)%nat ->
  (forall i, (i < j)%nat ->
     Retry.fails_transiently (Retry.nth_completion op i w)) ->
  Retry.nth_completion op j w = Throw error ->
  Retry.isThrottling error = false ->
  exists tr,
    executeWithRetry w = (Throw error, Retry.after_calls op (S j) w, tr)
    /\ attempts_of tr = S j
    /\ steps_of tr
       = Called
         :: flat_map
              (fun i =>
                 [Slept (Z.min (BASE_DELAY * 2 ^ (Z.of_nat i - 1)) MAX_DELAY); Called])
              (seq 1 j)
    /\ sleeps_of tr = List.map backoff (seq 1 j).
Proof.
  intros Hj Hfail Hlast Hperm.
  destruct (@retry_loop_settles W T MAX_RETRIES BASE_DELAY MAX_DELAY op operationName
              j (S MAX_RETRIES) 0%nat None w (Throw error))
    as (tr & Heq & Hatt & Hsl);
    [lia | assumption | assumption | simpl; congruence |].
  rewrite schedule_0 in Hsl.
  exists tr. split; [exact Heq|]. split; [exact Hatt|]. split; [|exact Hsl].
  pose proof (@retry_loop_steps W T MAX_RETRIES BASE_DELAY MAX_DELAY op operationName
                (S MAX_RETRIES) 0%nat None w) as Hsteps.
  rewrite Heq in Hsteps. cbn [snd] in Hsteps.
  rewrite Hsteps, Hatt. apply retry_steps_0.
Qed.

Lemma newError_not_throttling (msg : jsstring) :
  Retry.isThrottling (newError msg) = false.
Proof. reflexivity. Qed.

(** X6. The final error is not itself a throttling error: an executor
    wrapped around another one calls it once and rethrows its final
    error, so nesting does not multiply the attempts. *)
Theorem nested_executeWithRetry_single_attempt
  (MAX_RETRIES' : nat) (BASE_DELAY' MAX_DELAY' : Z) (operationName' : jsstring)
  (w : W) :
  (forall i, (i <= MAX_RETRIES)%nat ->
     Retry.fails_transiently (Retry.nth_completion op i w)) ->
  exists lastError tr,
    Retry.nth_completion op MAX_RETRIES w = Throw lastError
    /\ Retry.executeWithRetry MAX_RETRIES' BASE_DELAY' MAX_DELAY'
         executeWithRetry operationName' w
       = (Throw (newError (exhausted (message lastError))),
          Retry.after_calls op (S MAX_RETRIES) w, [EvInvoke tr])
    /\ attempts_of tr = S MAX_RETRIES.
Proof.
  intros Hfail.
  destruct (@retry_loop_exhausts W T MAX_RETRIES BASE_DELAY MAX_DELAY op operationName
              MAX_RETRIES 0%nat None w Hfail)
    as (e & tr & Hlast & Heq & Hatt & _).
  exists e, tr. split; [exact Hlast|]. split; [|exact Hatt].
  unfold Retry.executeWithRetry at 1. rewrite retry_loop_step.
  unfold Retry.executeWithRetry. rewrite Heq.
  rewrite newError_not_throttling. reflexivity.
Qed.

End RetryShape.

Lemma executeWithRetry_total_sleep_witness :
  total (sleeps_of (snd (Mistral.executeWithRetry (Sample.flaky 9) (js "OCR") 0%nat)))
  <= Z.of_nat Mistral.MAX_RETRIES * Mistral.MAX_DELAY
  /\ total (sleeps_of (snd (Mistral.executeWithRetry (Sample.flaky 9) (js "OCR") 0%nat)))
     <= Mistral.BASE_DELAY * (2 ^ Z.of_nat Mistral.MAX_RETRIES - 1).
Proof.
  apply (@executeWithRetry_total_sleep nat Z Mistral.MAX_RETRIES Mistral.BASE_DELAY
           Mistral.MAX_DELAY (Sample.flaky 9) (js "OCR") 0%nat).
  - unfold Mistral.BASE_DELAY. lia.
  - unfold Mistral.MAX_DELAY. lia.
Defined.

Example mistral_worst_case_sleep :
  total (sleeps_of (snd (Mistral.executeWithRetry (Sample.flaky 9) (js "OCR") 0%nat)))
  = 31000
  /\ Mistral.BASE_DELAY * (2 ^ Z.of_nat Mistral.MAX_RETRIES - 1) = 31000.
Proof. split; vm_compute; reflexivity. Qed.

Lemma executeWithRetry_last_attempt_witness :
  exists tr,
    Retry.executeWithRetry 5 1000 30000 (Sample.flaky 5) (js "OCR") 0%nat
      = (Return 42, Retry.after_calls (Sample.flaky 5) 6 0%nat, tr)
    /\ attempts_of tr = 6%nat
    /\ sleeps_of tr = List.map (Retry.backoff 1000 30000) (seq 1 5).
Proof.
  apply (@executeWithRetry_last_attempt nat Z 5%nat 1000 30000 (Sample.flaky 5)
           (js "OCR") 0%nat 42).
  - intros [|[|[|[|[|i]]]]] Hi; try reflexivity. lia.
  - reflexivity.
Defined.

Lemma executeWithRetry_permanent_after_transient_witness :
  exists tr,
    Retry.executeWithRetry 5 1000 30000 (Cases.throttled_then_denied 2) (js "OCR") 0%nat
      = (Throw Sample.denied,
         Retry.after_calls (Cases.throttled_then_denied 2) 3 0%nat, tr)
    /\ attempts_of tr = 3%nat
    /\ steps_of tr
       = Called
         :: flat_map
              (fun i => [Slept (Z.min (1000 * 2 ^ (Z.of_nat i - 1)) 30000); Called])
              (seq 1 2)
    /\ sleeps_of tr = List.map (Retry.backoff 1000 30000) (seq 1 2).
Proof.
  apply (@executeWithRetry_permanent_after_transient nat Z 5%nat 1000 30000
           (Cases.throttled_then_denied 2) (js "OCR") 0%nat 2%nat Sample.denied).
  - lia.
  - intros [|[|i]] Hi; [reflexivity | reflexivity | lia].
  - reflexivity.
  - reflexivity.
Defined.

Lemma nested_executeWithRetry_single_attempt_witness :
  exists lastError tr,
    Retry.nth_completion (Sample.flaky 99) 5 0%nat = Throw lastError
    /\ Retry.executeWithRetry 3 500 4000
         (Retry.executeWithRetry 5 1000 30000 (Sample.flaky 99) (js "OCR"))
         (js "outer") 0%nat
       = (Throw (newError (Retry.exhausted_message 5 (js "OCR") (message lastError))),
          Retry.after_calls (Sample.flaky 99) 6 0%nat, [EvInvoke tr])
    /\ attempts_of tr = 6%nat.
Proof.
  apply (@nested_executeWithRetry_single_attempt nat Z 5%nat 1000 30000
           (Sample.flaky 99) (js "OCR") 3%nat 500 4000 (js "outer") 0%nat).
  intros [|[|[|[|[|[|i]]]]]] Hi; try reflexivity. lia.
Defined.

(** ** More on the string primitives *)

Section StrMore.

Variable c : N.

Lemma indexOf_from_found (s : jsstring) :
  forall (i r : Z),
    Str.indexOf_from c s i = r -> r <> -1 -> 0 <= i ->
    i <= r /\ nth_error s (Z.to_nat (r - i)) = Some c.
Proof.
  induction s as [|x s IH]; intros i r H Hr Hi; simpl in H; [congruence|].
  destruct (N.eqb x c) eqn:E.
  - apply N.eqb_eq in E. subst x. subst r. split; [lia|].
    replace (i - i) with 0 by lia. reflexivity.
  - destruct (IH (i + 1) r H Hr ltac:(lia)) as [H1 H2]. split; [lia|].
    replace (Z.to_nat (r - i)) with (S (Z.to_nat (r - (i + 1)))) by lia. exact H2.
Qed.

Lemma indexOf_from_skips (a b : jsstring) (i : Z) :
  ~ In c a -> Str.indexOf_from c (a ++ c :: b) i = i + Z.of_nat (List.length a).
Proof.
  revert i. induction a as [|x a IH]; intros i Hnot; simpl.
  - rewrite N.eqb_refl. lia.
  - destruct (N.eqb x c) eqn:E.
    + apply N.eqb_eq in E. elim Hnot. now left.
    + rewrite IH by (intros H; apply Hnot; now right). lia.
Qed.

Lemma lastIndexOf_from_found (s : jsstring) :
  forall (i found r : Z),
    Str.lastIndexOf_from c s i found = r -> r <> found ->
    i <= r /\ nth_error s (Z.to_nat (r - i)) = Some c.
Proof.
  induction s as [|x s IH]; intros i found r H Hr; simpl in H; [congruence|].
  assert (Hshift : i + 1 <= r ->
            Z.to_nat (r - i) = S (Z.to_nat (r - (i + 1)))) by lia.
  destruct (N.eqb x c) eqn:E.
  - apply N.eqb_eq in E. subst x.
    destruct (Z.eq_dec r i) as [->|Hne].
    + split; [lia|]. replace (i - i) with 0 by lia. reflexivity.
    + destruct (IH (i + 1) i r H Hne) as [H1 H2]. split; [lia|].
      rewrite Hshift by lia. exact H2.
  - destruct (IH (i + 1) found r H Hr) as [H1 H2]. split; [lia|].
    rewrite Hshift by lia. exact H2.
Qed.

Lemma lastIndexOf_from_absent (s : jsstring) :
  forall (i found : Z), ~ In c s -> Str.lastIndexOf_from c s i found = found.
Proof.
  induction s as [|x s IH]; intros i found Hnot; simpl; [reflexivity|].
  destruct (N.eqb x c) eqn:E.
  - apply N.eqb_eq in E. elim Hnot. now left.
  - apply IH. intros H. apply Hnot. now right.
Qed.

Lemma lastIndexOf_from_last (a b : jsstring) :
  forall (i found : Z),
    ~ In c b ->
    Str.lastIndexOf_from c (a ++ c :: b) i found = i + Z.of_nat (List.length a).
Proof.
  induction a as [|x a IH]; intros i found Hnot; simpl.
  - rewrite N.eqb_refl, lastIndexOf_from_absent by assumption. lia.
  - rewrite IH by assumption. lia.
Qed.

End StrMore.

Lemma substring_firstn_skipn (s : jsstring) (a b : Z) :
  0 <= a <= b -> b <= Str.length s ->
  Str.substring s a b = firstn (Z.to_nat (b - a)) (skipn (Z.to_nat a) s).
Proof.
  unfold Str.substring, Str.length. intros Ha Hb.
  set (len := Z.of_nat (List.length s)) in *.
  replace (Z.min (Z.min (Z.max a 0) len) (Z.min (Z.max b 0) len)) with a by lia.
  replace (Z.max (Z.min (Z.max a 0) len) (Z.min (Z.max b 0) len)) with b by lia.
  reflexivity.
Qed.

Lemma firstn_S_snoc {A} (l : list A) (n : nat) (x : A) :
  nth_error l n = Some x -> firstn (S n) l = firstn n l ++ [x].
Proof.
  revert n. induction l as [|y l IH]; intros [|n] H; simpl in *; try discriminate.
  - now injection H as ->.
  - now rewrite (IH n H).
Qed.

(** A slice that runs from an opening brace to a later closing brace. *)
Lemma slice_braced (s : jsstring) (f l : nat) :
  (f < l)%nat ->
  nth_error s f = Some lbrace ->
  nth_error s l = Some rbrace ->
  braced (firstn (S l - f) (skipn f s)).
Proof.
  intros Hfl Hf Hl.
  assert (Hf' : nth_error (skipn f s) 0 = Some lbrace)
    by (rewrite nth_error_skipn, Nat.add_0_r; exact Hf).
  assert (Hl' : nth_error (skipn f s) (l - f) = Some rbrace)
    by (rewrite nth_error_skipn; replace (f + (l - f))%nat with l by lia; exact Hl).
  destruct (skipn f s) as [|x t]; [discriminate|].
  injection Hf' as ->.
  replace (S l - f)%nat with (S (S (l - f - 1))) by lia.
  replace (l - f)%nat with (S (l - f - 1)) in Hl' by lia. simpl in Hl'.
  exists (firstn (l - f - 1) t). cbn [firstn]. f_equal.
  now apply firstn_S_snoc.
Qed.

(** ** What the candidates look like *)

Lemma mistral_strategy1_slice (s : jsstring) :
  Mistral.strategy1 s = []
  \/ exists f l,
       (f < l)%nat
       /\ nth_error s f = Some lbrace
       /\ nth_error s l = Some rbrace
       /\ Mistral.strategy1 s = firstn (S l - f) (skipn f s).
Proof.
  unfold Mistral.strategy1, Str.indexOf, Str.lastIndexOf.
  remember (Str.indexOf_from lbrace s 0) as fb eqn:Ef.
  remember (Str.lastIndexOf_from rbrace s 0 (-1)) as lb eqn:El.
  symmetry in Ef, El.
  destruct (negb (fb =? -1) && negb (lb =? -1) && (lb >? fb))%bool eqn:Ec;
    [right | now left].
  apply andb_true_iff in Ec. destruct Ec as [Ec Hgt].
  apply andb_true_iff in Ec. destruct Ec as [Hf Hl].
  apply negb_true_iff, Z.eqb_neq in Hf. apply negb_true_iff, Z.eqb_neq in Hl.
  apply Z.gtb_lt in Hgt.
  destruct (@indexOf_from_found lbrace s 0 fb Ef Hf ltac:(lia)) as [Hf1 Hf2].
  destruct (@lastIndexOf_from_found rbrace s 0 (-1) lb El Hl) as [Hl1 Hl2].
  rewrite Z.sub_0_r in Hf2, Hl2.
  exists (Z.to_nat fb), (Z.to_nat lb).
  assert (Hlen : (Z.to_nat lb < List.length s)%nat)
    by (apply nth_error_Some; congruence).
  split; [lia|]. split; [exact Hf2|]. split; [exact Hl2|].
  rewrite substring_firstn_skipn by (unfold Str.length; lia).
  f_equal. lia.
Qed.

Lemma mistral_strategy1_needs_pair (s : jsstring) :
  Mistral.strategy1 s <> [] -> brace_pair s.
Proof.
  intros H. destruct (mistral_strategy1_slice s) as [E|(f & l & Hfl & Hf & Hl & _)];
    [contradiction|].
  now exists f, l.
Qed.

Lemma mistral_recoverJson_strategy1 (s : jsstring) :
  Mistral.recoverJson s = Mistral.strategy1 s.
Proof.
  unfold Mistral.recoverJson.
  destruct (Mistral.strategy1 s) as [|x r] eqn:E1; [|reflexivity]. simpl.
  assert (Hno : ~ brace_pair s).
  { intros H. now apply strategy1_finds_pair in H. }
  destruct (Mistral.strategy2 s) as [|y r2] eqn:E2.
  - simpl. destruct (Mistral.strategy3 s) as [|z r3] eqn:E3; [reflexivity|].
    elim Hno. apply strategy3_needs_pair. rewrite E3. discriminate.
  - elim Hno. apply strategy2_needs_pair. rewrite E2. discriminate.
Qed.

Lemma count_cons (c x : N) (s : jsstring) :
  count c (x :: s) = ((if N.eqb c x then 1 else 0) + count c s)%nat.
Proof. unfold count. simpl. destruct (N.eqb c x); reflexivity. Qed.

Lemma count_app (c : N) (a b : jsstring) : count c (a ++ b) = (count c a + count c b)%nat.
Proof. unfold count. now rewrite filter_app, length_app. Qed.

(** The prefix matched by [C* \}] is a run of [C] and a closing brace. *)
Lemma star_then_rbrace_prefix (C : N -> bool) (s : jsstring) :
  forall n, Str.star_then_rbrace C s = Some n ->
            exists body, firstn n s = body ++ [rbrace] /\ forallb C body = true.
Proof.
  induction s as [|x s IH]; intros n H; simpl in H; [discriminate|].
  destruct (C x) eqn:Ecx.
  - destruct (Str.star_then_rbrace C s) as [k|] eqn:E.
    + injection H as <-. destruct (IH k eq_refl) as (body & Hb & Hc).
      exists (x :: body). simpl. rewrite Hb, Ecx, Hc. split; reflexivity.
    + destruct (N.eqb x rbrace) eqn:Er; [|discriminate].
      injection H as <-. apply N.eqb_eq in Er. subst x. exists []. split; reflexivity.
  - destruct (N.eqb x rbrace) eqn:Er; [|discriminate].
    injection H as <-. apply N.eqb_eq in Er. subst x. exists []. split; reflexivity.
Qed.

Lemma regex_match_braced (C : N -> bool) (s : jsstring) :
  forall m, Str.regex_match C s = Some m ->
            exists body, m = lbrace :: body ++ [rbrace] /\ forallb C body = true.
Proof.
  induction s as [|x s IH]; intros m H; simpl in H; [discriminate|].
  destruct (N.eqb x lbrace) eqn:El; [|now apply IH].
  destruct (Str.star_then_rbrace C s) as [n|] eqn:E; simpl in H; [|now apply IH].
  injection H as <-. apply N.eqb_eq in El. subst x.
  destruct (star_then_rbrace_prefix C s E) as (body & Hb & Hc).
  exists body. simpl. now rewrite Hb.
Qed.

(** When the class has every code unit but perhaps the closing brace,
    [C* \}] matches as soon as a closing brace is there. *)
Lemma star_then_rbrace_matches (C : N -> bool) (s : jsstring) :
  (forall x, x <> rbrace -> C x = true) ->
  In rbrace s -> exists n, Str.star_then_rbrace C s = Some n.
Proof.
  intros HC. induction s as [|x s IH]; intros Hin; [contradiction|]. simpl.
  destruct (N.eqb x rbrace) eqn:Er.
  - destruct (if C x then Str.star_then_rbrace C s else None); eauto.
  - apply N.eqb_neq in Er. rewrite (HC x Er).
    destruct Hin as [->|Hin]; [contradiction|].
    destruct (IH Hin) as (n & ->). eauto.
Qed.

Lemma regex_match_finds_pair (C : N -> bool) (s : jsstring) :
  (forall x, x <> rbrace -> C x = true) ->
  brace_pair s -> exists m, Str.regex_match C s = Some m.
Proof.
  intros HC. induction s as [|x s IH]; intros (i & j & Hij & Hi & Hj).
  - destruct i; discriminate.
  - simpl. destruct (N.eqb x lbrace) eqn:El.
    + destruct j as [|j]; [lia|]. simpl in Hj.
      destruct (@star_then_rbrace_matches C s HC (nth_error_In _ _ Hj)) as (n & ->).
      simpl. eauto.
    + destruct i as [|i]; [simpl in Hi; injection Hi as ->; now rewrite N.eqb_refl in El|].
      destruct j as [|j]; [lia|].
      apply IH. exists i, j. repeat split; [lia | exact Hi | exact Hj].
Qed.

Lemma notRbrace_spec (x : N) : x <> rbrace -> Str.notRbrace x = true.
Proof. intros H. unfold Str.notRbrace. apply negb_true_iff, N.eqb_neq, H. Qed.

Lemma pixtral_strategy2_iff (s : jsstring) : Pixtral.strategy2 s <> [] <-> brace_pair s.
Proof.
  unfold Pixtral.strategy2. split.
  - destruct (Str.regex_match Str.notRbrace s) as [m|] eqn:E; [|congruence].
    intros _. eapply regex_match_needs_pair. exact E.
  - intros H. destruct (@regex_match_finds_pair Str.notRbrace s notRbrace_spec H)
      as (m & Hm).
    rewrite Hm. destruct (regex_match_braced _ _ Hm) as (body & -> & _). discriminate.
Qed.

(** The loop of strategy 1 of the Pixtral provider stops on the brace
    that brings the depth back to zero. *)
Lemma depth_scan_closes (t : jsstring) :
  forall (i braceCount endIndex endIndex' : Z),
    0 < braceCount ->
    Pixtral.depth_scan t i braceCount endIndex = (0, endIndex') ->
    exists n,
      endIndex' = i + Z.of_nat n
      /\ nth_error t n = Some rbrace
      /\ braceCount + Z.of_nat (count lbrace (firstn (S n) t))
         = Z.of_nat (count rbrace (firstn (S n) t)).
Proof.
  induction t as [|x t IH]; intros i bc e0 e' Hbc H; simpl in H.
  - injection H as -> _. lia.
  - destruct (N.eqb x lbrace) eqn:El.
    + apply N.eqb_eq in El. subst x.
      destruct (IH (i + 1) (bc + 1) e0 e' ltac:(lia) H) as (n & -> & Hn & Hc).
      exists (S n). split; [lia|]. split; [exact Hn|].
      rewrite firstn_cons, !count_cons. cbn [N.eqb lbrace rbrace Pos.eqb]. lia.
    + destruct (N.eqb x rbrace) eqn:Er.
      * apply N.eqb_eq in Er. subst x.
        destruct (bc - 1 =? 0) eqn:Ez.
        -- injection H as _ <-. apply Z.eqb_eq in Ez.
           exists 0%nat. split; [lia|]. split; [reflexivity|].
           rewrite firstn_cons, !count_cons. cbn [N.eqb lbrace rbrace Pos.eqb].
           unfold count. simpl. lia.
        -- apply Z.eqb_neq in Ez.
           destruct (IH (i + 1) (bc - 1) e0 e' ltac:(lia) H) as (n & -> & Hn & Hc).
           exists (S n). split; [lia|]. split; [exact Hn|].
           rewrite firstn_cons, !count_cons. cbn [N.eqb lbrace rbrace Pos.eqb]. lia.
      * destruct (IH (i + 1) bc e0 e' Hbc H) as (n & -> & Hn & Hc).
        exists (S n). split; [lia|]. split; [exact Hn|].
        rewrite firstn_cons, !count_cons.
        rewrite (N.eqb_sym lbrace x), (N.eqb_sym rbrace x), El, Er. lia.
Qed.

Lemma pixtral_strategy1_slice (s : jsstring) :
  Pixtral.strategy1 s = []
  \/ exists f body,
       nth_error s f = Some lbrace
       /\ nth_error s (f + S (List.length body)) = Some rbrace
       /\ Pixtral.strategy1 s = lbrace :: body ++ [rbrace]
       /\ count lbrace (lbrace :: body ++ [rbrace])
          = count rbrace (lbrace :: body ++ [rbrace]).
Proof.
  unfold Pixtral.strategy1, Str.indexOf.
  remember (Str.indexOf_from lbrace s 0) as fb eqn:Ef. symmetry in Ef.
  destruct (fb =? -1) eqn:Efb; [now left|]. apply Z.eqb_neq in Efb. cbn [negb].
  destruct (@indexOf_from_found lbrace s 0 fb Ef Efb ltac:(lia)) as [Hf1 Hf2].
  rewrite Z.sub_0_r in Hf2.
  assert (Hsk : nth_error (skipn (Z.to_nat fb) s) 0 = Some lbrace)
    by (rewrite nth_error_skipn, Nat.add_0_r; exact Hf2).
  destruct (skipn (Z.to_nat fb) s) as [|x t] eqn:Et; [discriminate|].
  injection Hsk as ->. cbn [Pixtral.depth_scan]. rewrite N.eqb_refl.
  destruct (Pixtral.depth_scan t (fb + 1) (0 + 1) fb) as [bc e'] eqn:Escan.
  destruct (bc =? 0) eqn:Ebc; [|now left]. apply Z.eqb_eq in Ebc. subst bc.
  destruct (@depth_scan_closes t (fb + 1) (0 + 1) fb e' ltac:(lia) Escan)
    as (n & -> & Hn & Hc).
  right. exists (Z.to_nat fb), (firstn n t).
  assert (Hnlen : (n < List.length t)%nat) by (apply nth_error_Some; congruence).
  assert (Hlen : (Z.to_nat fb + S n < List.length s)%nat).
  { apply (f_equal (@List.length N)) in Et. rewrite length_skipn in Et.
    simpl in Et. lia. }
  assert (Hbody : List.length (firstn n t) = n) by (rewrite length_firstn; lia).
  rewrite Hbody.
  assert (Hcand : Str.substring s fb (fb + 1 + Z.of_nat n + 1)
                  = lbrace :: firstn n t ++ [rbrace]).
  { rewrite substring_firstn_skipn by (unfold Str.length; lia).
    rewrite Et.
    replace (Z.to_nat (fb + 1 + Z.of_nat n + 1 - fb)) with (S (S n)) by lia.
    cbn [firstn]. f_equal. now apply firstn_S_snoc. }
  split; [exact Hf2|]. split.
  { replace (Z.to_nat fb + S n)%nat with (Z.to_nat fb + S n)%nat by lia.
    rewrite <- nth_error_skipn, Et. exact Hn. }
  split; [exact Hcand|].
  rewrite <- (firstn_S_snoc _ _ Hn), !count_cons.
  cbn [N.eqb lbrace rbrace Pos.eqb]. lia.
Qed.

Lemma pixtral_strategy1_needs_pair (s : jsstring) :
  Pixtral.strategy1 s <> [] -> brace_pair s.
Proof.
  intros H. destruct (pixtral_strategy1_slice s) as [E|(f & body & Hf & Hl & _)];
    [contradiction|].
  exists f, (f + S (List.length body))%nat. repeat split; [lia|assumption..].
Qed.

(** ** Lines and trimming *)

Lemma brace_pair_app (a m b : jsstring) : brace_pair m -> brace_pair (a ++ m ++ b).
Proof.
  intros (i & j & Hij & Hi & Hj).
  exists (List.length a + i)%nat, (List.length a + j)%nat.
  assert (Hi' : (i < List.length m)%nat) by (apply nth_error_Some; congruence).
  assert (Hj' : (j < List.length m)%nat) by (apply nth_error_Some; congruence).
  split; [lia|].
  split; rewrite nth_error_app2 by lia;
    match goal with
    | |- nth_error _ ?k = _ =>
        replace k with (k - 0)%nat by lia
    end;
    rewrite nth_error_app1 by lia;
    [replace (List.length a + i - List.length a - 0)%nat with i by lia
    |replace (List.length a + j - List.length a - 0)%nat with j by lia];
    assumption.
Qed.

Lemma trimStart_suffix (s : jsstring) : exists a, s = a ++ Str.trimStart s.
Proof.
  induction s as [|x s IH]; [now exists []|]. simpl.
  destruct (Str.isWhiteSpace x); [|now exists []].
  destruct IH as (a & Ha). exists (x :: a). simpl. now rewrite <- Ha.
Qed.

Lemma trim_infix (s : jsstring) : exists a b, s = a ++ Str.trim s ++ b.
Proof.
  unfold Str.trim, Str.trimEnd.
  destruct (trimStart_suffix s) as (a & Ha).
  destruct (trimStart_suffix (rev (Str.trimStart s))) as (b & Hb).
  exists a, (rev b). rewrite <- rev_app_distr, <- Hb, rev_involutive. exact Ha.
Qed.

Lemma split_lines_head (s : jsstring) :
  exists line rest b, Str.split_lines s = line :: rest /\ s = line ++ b.
Proof.
  induction s as [|x s IH]; [now exists [], [], []|]. simpl.
  destruct (N.eqb x newline).
  - exists [], (Str.split_lines s), (x :: s). split; reflexivity.
  - destruct IH as (line & rest & b & -> & Hb).
    exists (x :: line), rest, b. split; [reflexivity|]. simpl. now rewrite <- Hb.
Qed.

Lemma split_lines_infix (s : jsstring) :
  forall line, In line (Str.split_lines s) -> exists a b, s = a ++ line ++ b.
Proof.
  induction s as [|x s IH]; intros line Hin; simpl in Hin.
  - destruct Hin as [<-|[]]. now exists [], [].
  - destruct (N.eqb x newline).
    + destruct Hin as [<-|Hin]; [now exists [], (x :: s)|].
      destruct (IH line Hin) as (a & b & Hab). exists (x :: a), b. simpl. now rewrite <- Hab.
    + destruct (split_lines_head s) as (l0 & rest & b0 & E & Hb0).
      rewrite E in Hin, IH. destruct Hin as [<-|Hin].
      * exists [], b0. simpl. now rewrite <- Hb0.
      * destruct (IH line (or_intror Hin)) as (a & b & Hab).
        exists (x :: a), b. simpl. now rewrite <- Hab.
Qed.

Lemma first_object_line_found (lines : list jsstring) :
  Pixtral.first_object_line lines <> [] ->
  exists line,
    In line lines
    /\ Pixtral.first_object_line lines = Str.trim line
    /\ Str.startsWith lbrace (Str.trim line) = true
    /\ Str.includes rbrace (Str.trim line) = true.
Proof.
  induction lines as [|line rest IH]; intros H; simpl in *; [congruence|].
  destruct (Str.startsWith lbrace (Str.trim line) && Str.includes rbrace (Str.trim line))%bool
    eqn:E.
  - apply andb_true_iff in E. exists line. repeat split; [now left | apply E..].
  - destruct (IH H) as (l & Hin & Heq & Hs & Hi). exists l.
    repeat split; [now right | assumption..].
Qed.

Lemma object_line_has_pair (t : jsstring) :
  Str.startsWith lbrace t = true -> Str.includes rbrace t = true -> brace_pair t.
Proof.
  destruct t as [|x t]; [discriminate|]. simpl. intros Hs Hi.
  apply N.eqb_eq in Hs. subst x. cbn [N.eqb rbrace lbrace Pos.eqb orb] in Hi.
  apply existsb_exists in Hi. destruct Hi as (y & Hin & Hy).
  apply N.eqb_eq in Hy. subst y.
  apply In_nth_error in Hin. destruct Hin as (n & Hn).
  exists 0%nat, (S n). repeat split; [lia | exact Hn].
Qed.

Lemma pixtral_strategy3_needs_pair (s : jsstring) :
  Pixtral.strategy3 s <> [] -> brace_pair s.
Proof.
  unfold Pixtral.strategy3. intros H.
  destruct (first_object_line_found _ H) as (line & Hin & _ & Hs & Hi).
  destruct (split_lines_infix s line Hin) as (a & b & ->).
  destruct (trim_infix line) as (a' & b' & Hline).
  apply brace_pair_app. rewrite Hline. apply brace_pair_app.
  now apply object_line_has_pair.
Qed.

(** ** The recovery of the Pixtral provider *)

Lemma pixtral_recoverJson_two (s : jsstring) :
  Pixtral.recoverJson s = first_nonempty [Pixtral.strategy1 s; Pixtral.strategy2 s].
Proof.
  unfold Pixtral.recoverJson. cbn [first_nonempty].
  destruct (Pixtral.strategy1 s) as [|x r] eqn:E1; [|reflexivity]. cbn [falsy].
  destruct (Pixtral.strategy2 s) as [|y r2] eqn:E2; [|reflexivity]. cbn [falsy].
  destruct (Pixtral.strategy3 s) as [|z r3] eqn:E3; [reflexivity|].
  exfalso. assert (H : brace_pair s).
  { apply pixtral_strategy3_needs_pair. rewrite E3. discriminate. }
  apply pixtral_strategy2_iff in H. contradiction.
Qed.

(** X7. Strategy 3 of the Pixtral provider never supplies the candidate:
    a line that starts with an opening brace and contains a closing one
    is already matched by the pattern of strategy 2. *)
Theorem pixtral_strategy3_never_used (responseText : jsstring) :
  Pixtral.recoverJson responseText
  = first_nonempty [Pixtral.strategy1 responseText; Pixtral.strategy2 responseText]
  /\ (Pixtral.strategy2 responseText <> [] \/ Pixtral.strategy3 responseText = []).
Proof.
  split; [apply pixtral_recoverJson_two|].
  destruct (Pixtral.strategy2 responseText) as [|y r2] eqn:E2; [right|left; discriminate].
  destruct (Pixtral.strategy3 responseText) as [|z r3] eqn:E3; [reflexivity|].
  exfalso. assert (H : brace_pair responseText).
  { apply pixtral_strategy3_needs_pair. rewrite E3. discriminate. }
  apply pixtral_strategy2_iff in H. contradiction.
Qed.

(** X8. What strategy 1 of the Pixtral provider returns, when it returns
    something, runs from an opening to a closing brace and holds as many
    opening as closing braces. *)
Theorem pixtral_strategy1_balanced (responseText : jsstring) :
  Pixtral.strategy1 responseText = []
  \/ (braced (Pixtral.strategy1 responseText)
      /\ count lbrace (Pixtral.strategy1 responseText)
         = count rbrace (Pixtral.strategy1 responseText)).
Proof.
  destruct (pixtral_strategy1_slice responseText)
    as [E|(f & body & _ & _ & -> & Hc)]; [now left|right].
  split; [now exists body | exact Hc].
Qed.

(** X9. What strategy 2 of the Pixtral provider returns, when it returns
    something, has its only closing brace at the end: an object nested
    in another is cut at the first closing brace. *)
Theorem pixtral_strategy2_single_closing (responseText : jsstring) :
  Pixtral.strategy2 responseText = []
  \/ exists body,
       Pixtral.strategy2 responseText = lbrace :: body ++ [rbrace]
       /\ ~ In rbrace body.
Proof.
  unfold Pixtral.strategy2.
  destruct (Str.regex_match Str.notRbrace responseText) as [m|] eqn:E; [right|now left].
  destruct (regex_match_braced _ _ E) as (body & -> & Hc).
  exists body. split; [reflexivity|].
  intros Hin. rewrite forallb_forall in Hc. specialize (Hc rbrace Hin).
  discriminate Hc.
Qed.

(** ** Both recoveries *)

Lemma mistral_recoverJson_empty_iff (s : jsstring) :
  Mistral.recoverJson s = [] <-> ~ brace_pair s.
Proof.
  rewrite mistral_recoverJson_strategy1. split.
  - intros E H. now apply strategy1_finds_pair in H.
  - intros H. destruct (Mistral.strategy1 s) as [|x r] eqn:E; [reflexivity|].
    elim H. apply mistral_strategy1_needs_pair. rewrite E. discriminate.
Qed.

Lemma pixtral_recoverJson_empty_iff (s : jsstring) :
  Pixtral.recoverJson s = [] <-> ~ brace_pair s.
Proof.
  rewrite pixtral_recoverJson_two. cbn [first_nonempty]. split.
  - intros E H. apply pixtral_strategy2_iff in H.
    destruct (Pixtral.strategy1 s) as [|x r]; [|discriminate E]. cbn [falsy] in E.
    destruct (Pixtral.strategy2 s) as [|y r2]; [contradiction|discriminate E].
  - intros H.
    destruct (Pixtral.strategy1 s) as [|x r] eqn:E1.
    + cbn [falsy]. destruct (Pixtral.strategy2 s) as [|y r2] eqn:E2; [reflexivity|].
      elim H. apply pixtral_strategy2_iff. rewrite E2. discriminate.
    + elim H. apply pixtral_strategy1_needs_pair. rewrite E1. discriminate.
Qed.

(** X10. Either provider finds no candidate exactly in the responses in
    which no opening brace comes before a closing brace; so the two
    providers give up on the same responses. *)
Theorem recovery_empty_iff_no_brace_pair (responseText : jsstring) :
  (Mistral.recoverJson responseText = [] <-> ~ brace_pair responseText)
  /\ (Pixtral.recoverJson responseText = [] <-> ~ brace_pair responseText)
  /\ (Mistral.recoverJson responseText = [] <-> Pixtral.recoverJson responseText = []).
Proof.
  split; [apply mistral_recoverJson_empty_iff|].
  split; [apply pixtral_recoverJson_empty_iff|].
  rewrite mistral_recoverJson_empty_iff, pixtral_recoverJson_empty_iff. reflexivity.
Qed.

(** X11. A candidate of either provider, if there is one, starts with an
    opening brace and ends with a closing brace. *)
Theorem recovered_candidate_braced (responseText : jsstring) :
  (Mistral.recoverJson responseText = [] \/ braced (Mistral.recoverJson responseText))
  /\ (Pixtral.recoverJson responseText = [] \/ braced (Pixtral.recoverJson responseText)).
Proof.
  split.
  - rewrite mistral_recoverJson_strategy1.
    destruct (mistral_strategy1_slice responseText)
      as [E|(f & l & Hfl & Hf & Hl & ->)]; [now left|right].
    now apply slice_braced.
  - rewrite pixtral_recoverJson_two. cbn [first_nonempty].
    destruct (pixtral_strategy1_slice responseText)
      as [->|(f & body & _ & _ & -> & _)].
    + cbn [falsy]. unfold Pixtral.strategy2.
      destruct (Str.regex_match Str.notRbrace responseText) as [m|] eqn:E; [right|now left].
      destruct (regex_match_braced _ _ E) as (body & -> & _). now exists body.
    + right. now exists body.
Qed.

(** ** Unwrapping an object *)

Lemma skipn_length_app {A} (a b : list A) : skipn (List.length a) (a ++ b) = b.
Proof. induction a as [|x a IH]; [reflexivity | exact IH]. Qed.

Lemma firstn_length_snoc {A} (b c : list A) (x : A) :
  firstn (S (List.length b)) (b ++ x :: c) = b ++ [x].
Proof. induction b as [|y b IH]; [reflexivity|]. simpl. f_equal. exact IH. Qed.

Lemma mistral_strategy1_unwrap (prefix body suffix : jsstring) :
  ~ In lbrace prefix ->
  ~ In rbrace suffix ->
  Mistral.strategy1 (prefix ++ lbrace :: body ++ rbrace :: suffix)
  = lbrace :: body ++ [rbrace].
Proof.
  intros Hp Hs.
  set (p := List.length prefix). set (b := List.length body).
  assert (Hf : Str.indexOf lbrace (prefix ++ lbrace :: body ++ rbrace :: suffix)
               = Z.of_nat p).
  { unfold Str.indexOf. rewrite indexOf_from_skips by assumption. fold p. lia. }
  assert (Hl : Str.lastIndexOf rbrace (prefix ++ lbrace :: body ++ rbrace :: suffix)
               = Z.of_nat (p + S b)).
  { unfold Str.lastIndexOf.
    replace (prefix ++ lbrace :: body ++ rbrace :: suffix)
      with ((prefix ++ lbrace :: body) ++ rbrace :: suffix)
      by (now rewrite <- app_assoc).
    rewrite lastIndexOf_from_last by assumption.
    rewrite length_app. cbn [List.length]. fold p b. lia. }
  unfold Mistral.strategy1. rewrite Hf, Hl. cbv zeta.
  replace (Z.of_nat p =? -1) with false by (symmetry; apply Z.eqb_neq; lia).
  replace (Z.of_nat (p + S b) =? -1) with false by (symmetry; apply Z.eqb_neq; lia).
  replace (Z.of_nat (p + S b) >? Z.of_nat p) with true
    by (symmetry; apply Z.gtb_lt; lia).
  cbn [negb andb].
  rewrite substring_firstn_skipn.
  - replace (Z.to_nat (Z.of_nat p)) with p by lia.
    replace (Z.to_nat (Z.of_nat (p + S b) + 1 - Z.of_nat p)) with (S (S b)) by lia.
    unfold p. rewrite skipn_length_app. cbn [firstn]. f_equal.
    apply firstn_length_snoc.
  - lia.
  - unfold Str.length. rewrite !length_app. cbn [List.length]. rewrite length_app.
    cbn [List.length]. fold p b. lia.
Qed.

(** X12. The Mistral recovery unwraps an object from the prose around it:
    when no opening brace comes before the object and no closing brace
    after it, the candidate is exactly the object. *)
Theorem mistral_recovery_unwraps (prefix body suffix : jsstring) :
  ~ In lbrace prefix ->
  ~ In rbrace suffix ->
  Mistral.recoverJson (prefix ++ lbrace :: body ++ rbrace :: suffix)
  = lbrace :: body ++ [rbrace].
Proof.
  intros Hp Hs. rewrite mistral_recoverJson_strategy1.
  now apply mistral_strategy1_unwrap.
Qed.

(** X13. Recovering from a recovered candidate changes nothing. *)
Theorem mistral_recovery_idempotent (responseText : jsstring) :
  Mistral.recoverJson (Mistral.recoverJson responseText)
  = Mistral.recoverJson responseText.
Proof.
  rewrite !mistral_recoverJson_strategy1.
  destruct (mistral_strategy1_slice responseText)
    as [->|(f & l & Hfl & Hf & Hl & ->)]; [reflexivity|].
  destruct (slice_braced responseText Hfl Hf Hl) as (body & ->).
  apply (@mistral_strategy1_unwrap [] body []); intros [].
Qed.

Lemma depth_scan_skips (body rest : jsstring) :
  forall (i braceCount endIndex : Z),
    ~ In lbrace body -> ~ In rbrace body ->
    Pixtral.depth_scan (body ++ rest) i braceCount endIndex
    = Pixtral.depth_scan rest (i + Z.of_nat (List.length body)) braceCount endIndex.
Proof.
  induction body as [|x body IH]; intros i bc e Hl Hr.
  - simpl. f_equal. lia.
  - cbn [app Pixtral.depth_scan List.length].
    destruct (N.eqb x lbrace) eqn:El; [apply N.eqb_eq in El; elim Hl; now left|].
    destruct (N.eqb x rbrace) eqn:Er; [apply N.eqb_eq in Er; elim Hr; now left|].
    rewrite IH.
    + f_equal. lia.
    + intros H. apply Hl. now right.
    + intros H. apply Hr. now right.
Qed.

(** X14. The Pixtral recovery unwraps a flat object, one without braces
    inside, from whatever follows it, when no opening brace comes before
    it. *)
Theorem pixtral_recovery_unwraps_flat (prefix body suffix : jsstring) :
  ~ In lbrace prefix ->
  ~ In lbrace body ->
  ~ In rbrace body ->
  Pixtral.recoverJson (prefix ++ lbrace :: body ++ rbrace :: suffix)
  = lbrace :: body ++ [rbrace].
Proof.
  intros Hp Hl Hr. rewrite pixtral_recoverJson_two. cbn [first_nonempty].
  assert (H1 : Pixtral.strategy1 (prefix ++ lbrace :: body ++ rbrace :: suffix)
               = lbrace :: body ++ [rbrace]).
  { set (p := List.length prefix). set (b := List.length body).
    assert (Hf : Str.indexOf lbrace (prefix ++ lbrace :: body ++ rbrace :: suffix)
                 = Z.of_nat p).
    { unfold Str.indexOf. rewrite indexOf_from_skips by assumption. fold p. lia. }
    unfold Pixtral.strategy1. rewrite Hf. cbv zeta.
    replace (Z.of_nat p =? -1) with false by (symmetry; apply Z.eqb_neq; lia).
    cbn [negb].
    replace (Z.to_nat (Z.of_nat p)) with p by lia.
    unfold p. rewrite skipn_length_app. fold p.
    cbn [Pixtral.depth_scan]. rewrite N.eqb_refl.
    rewrite depth_scan_skips by assumption. fold b.
    cbn [Pixtral.depth_scan]. cbn [N.eqb rbrace lbrace Pos.eqb].
    change (0 + 1 - 1) with 0. cbn [Z.eqb]. cbv beta iota.
    rewrite substring_firstn_skipn.
    - replace (Z.to_nat (Z.of_nat p)) with p by lia.
      replace (Z.to_nat (Z.of_nat p + 1 + Z.of_nat b + 1 - Z.of_nat p))
        with (S (S b)) by lia.
      unfold p. rewrite skipn_length_app. cbn [firstn]. f_equal.
      apply firstn_length_snoc.
    - lia.
    - unfold Str.length. rewrite !length_app. cbn [List.length]. rewrite length_app.
      cbn [List.length]. fold p b. lia. }
  rewrite H1. reflexivity.
Qed.

Ltac not_in_literal :=
  let H := fresh "H" in
  intros H; vm_compute in H;
  repeat (destruct H as [H|H]; [discriminate H|]); exact H.

Lemma mistral_recovery_unwraps_witness :
  Mistral.recoverJson
    (js "Here it is: " ++ lbrace :: js "a:{b:1}" ++ rbrace :: js " - done")
  = lbrace :: js "a:{b:1}" ++ [rbrace].
Proof.
  apply (@mistral_recovery_unwraps (js "Here it is: ") (js "a:{b:1}") (js " - done"));
    not_in_literal.
Defined.

Lemma pixtral_recovery_unwraps_flat_witness :
  Pixtral.recoverJson
    (js "Here it is: " ++ lbrace :: js "a:1" ++ rbrace :: js " and {more}")
  = lbrace :: js "a:1" ++ [rbrace].
Proof.
  apply (@pixtral_recovery_unwraps_flat (js "Here it is: ") (js "a:1")
           (js " and {more}"));
    not_in_literal.
Defined.

Example pixtral_cuts_at_brace_in_string :
  Pixtral.recoverJson (js "{a:'}'}") = js "{a:'}"
  /\ Mistral.recoverJson (js "{a:'}'}") = js "{a:'}'}".
Proof. split; reflexivity. Qed.

(** ** Calls of the providers, end to end *)

Section ProviderRuns.

Variables W Json Schema : Type.
Variable P : Platform W Json Schema.
Variable FINETUNED_MODELS : list jsstring.

(** One attempt of an operation that throws an [Error] made by
    [new Error]: the executor stops there. *)
Lemma executeWithRetry_plain_error {T} (MAX_RETRIES : nat) (BASE_DELAY MAX_DELAY : Z)
  (op : operation W T) (operationName msg : jsstring) (w w1 : W) (t : list event) :
  op w = (Throw (newError msg), w1, t) ->
  Retry.executeWithRetry MAX_RETRIES BASE_DELAY MAX_DELAY op operationName w
  = (Throw (newError msg), w1, [EvInvoke t]).
Proof.
  intros H. unfold Retry.executeWithRetry. rewrite retry_loop_step, H. reflexivity.
Qed.

Lemma executeWithRetry_first_try {T} (MAX_RETRIES : nat) (BASE_DELAY MAX_DELAY : Z)
  (op : operation W T) (operationName : jsstring) (w w1 : W) (v : T) (t : list event) :
  op w = (Return v, w1, t) ->
  Retry.executeWithRetry MAX_RETRIES BASE_DELAY MAX_DELAY op operationName w
  = (Return v, w1, [EvInvoke t]).
Proof.
  intros H. unfold Retry.executeWithRetry. rewrite retry_loop_step, H. reflexivity.
Qed.

Lemma mistral_parseJson_fails (responseText : jsstring) (w : W) :
  ~ brace_pair responseText
  \/ (exists parseError, JSON_parse P (Mistral.recoverJson responseText) = Throw parseError) ->
  exists msg,
    Mistral.parseJson P responseText w
    = (Throw (newError (js "Invalid JSON response: " ++ msg)), w,
       [EvWarn (js "Failed to parse JSON from Mistral response: " ++ responseText)]).
Proof.
  unfold Mistral.parseJson, try_catch, bind, console_warn, emit, throw, lift.
  intros [Hno|(pe & Hpe)].
  - apply mistral_recoverJson_empty_iff in Hno. rewrite Hno. cbn [falsy].
    eexists. reflexivity.
  - destruct (falsy (Mistral.recoverJson responseText)); [eexists; reflexivity|].
    rewrite Hpe. eexists. reflexivity.
Qed.

Lemma pixtral_parseJson_fails (responseText : jsstring) (w : W) :
  ~ brace_pair responseText
  \/ (exists parseError, JSON_parse P (Pixtral.recoverJson responseText) = Throw parseError) ->
  exists msg,
    Pixtral.parseJson P responseText w
    = (Throw (newError (js "Invalid JSON response: " ++ msg)), w,
       [EvWarn (js "Failed to parse JSON from Pixtral response: " ++ responseText)]).
Proof.
  unfold Pixtral.parseJson, try_catch, bind, console_warn, emit, throw, lift.
  intros [Hno|(pe & Hpe)].
  - apply pixtral_recoverJson_empty_iff in Hno. rewrite Hno. cbn [falsy].
    eexists. reflexivity.
  - destruct (falsy (Pixtral.recoverJson responseText)); [eexists; reflexivity|].
    rewrite Hpe. eexists. reflexivity.
Qed.

(** X15. A reply of the service in which no object can be found, or whose
    candidate [JSON.parse] rejects, is not retried: [extractFromText] of
    the Mistral provider throws [Invalid JSON response: ...] after the one
    request, without a sleep. *)
Theorem mistral_extractFromText_parse_failure
  (this : Mistral.AWSBedrockMistralProvider) (text : jsstring) (schema : Schema)
  (w w1 w2 w3 : W) (start end_ : float) (reply : BedrockResponse)
  (e1 e2 e3 : list event) :
  performance_now P w = (Return start, w1, e1) ->
  client_send P {| req_model := Mistral.modelId this; req_text := Some text;
                   req_schema := Some schema; req_image := None |} w1
    = (Return reply, w2, e2) ->
  performance_now P w2 = (Return end_, w3, e3) ->
  ~ brace_pair (or_empty (output_text reply))
  \/ (exists parseError,
        JSON_parse P (Mistral.recoverJson (or_empty (output_text reply)))
        = Throw parseError) ->
  exists msg tr,
    Mistral.extractFromText P FINETUNED_MODELS this text schema w
    = (Throw (newError (js "Invalid JSON response: " ++ msg)), w3, tr)
    /\ attempts_of tr = 1%nat
    /\ sleeps_of tr = [].
Proof.
  intros H1 H2 H3 Hbad.
  destruct (mistral_parseJson_fails w3 Hbad) as (msg & Hp).
  exists msg. eexists. split.
  - unfold Mistral.extractFromText, Mistral.executeWithRetry.
    apply executeWithRetry_plain_error.
    unfold Mistral.extractFromText_operation, bind at 1. rewrite H1.
    unfold bind at 1. rewrite H2. unfold bind at 1. rewrite H3.
    unfold bind at 1. rewrite Hp. reflexivity.
  - split; reflexivity.
Qed.

(** X16. The same for [extractFromText] of the Pixtral provider. *)
Theorem pixtral_extractFromText_parse_failure
  (this : Pixtral.AWSBedrockPixtralProvider) (text : jsstring) (schema : Schema)
  (w w1 w2 w3 : W) (start end_ : float) (reply : BedrockResponse)
  (e1 e2 e3 : list event) :
  performance_now P w = (Return start, w1, e1) ->
  client_send P {| req_model := Pixtral.inferenceProfileId this; req_text := Some text;
                   req_schema := Some schema; req_image := None |} w1
    = (Return reply, w2, e2) ->
  performance_now P w2 = (Return end_, w3, e3) ->
  ~ brace_pair (or_empty (output_text reply))
  \/ (exists parseError,
        JSON_parse P (Pixtral.recoverJson (or_empty (output_text reply)))
        = Throw parseError) ->
  exists msg tr,
    Pixtral.extractFromText P FINETUNED_MODELS this text schema w
    = (Throw (newError (js "Invalid JSON response: " ++ msg)), w3, tr)
    /\ attempts_of tr = 1%nat
    /\ sleeps_of tr = [].
Proof.
  intros H1 H2 H3 Hbad.
  destruct (pixtral_parseJson_fails w3 Hbad) as (msg & Hp).
  exists msg. eexists. split.
  - unfold Pixtral.extractFromText, Pixtral.executeWithRetry.
    apply executeWithRetry_plain_error.
    unfold Pixtral.extractFromText_operation, bind at 1. rewrite H1.
    unfold bind at 1. rewrite H2. unfold bind at 1. rewrite H3.
    unfold bind at 1. rewrite Hp. reflexivity.
  - split; reflexivity.
Qed.

(** X17. A request of the Mistral provider answered at the first try: the
    JSON returned is what [JSON.parse] makes of the reply between its
    first opening and its last closing brace; the token counts are those
    of the reply, zero where the reply has none, and the duration is the
    difference of the two clock readings. *)
Theorem mistral_extractFromText_first_try
  (this : Mistral.AWSBedrockMistralProvider) (text : jsstring) (schema : Schema)
  (w w1 w2 w3 : W) (start end_ : float) (reply : BedrockResponse)
  (e1 e2 e3 : list event) (value : Json) (costIn costOut : float) :
  performance_now P w = (Return start, w1, e1) ->
  client_send P {| req_model := Mistral.modelId this; req_text := Some text;
                   req_schema := Some schema; req_image := None |} w1
    = (Return reply, w2, e2) ->
  performance_now P w2 = (Return end_, w3, e3) ->
  brace_pair (or_empty (output_text reply)) ->
  JSON_parse P (Mistral.strategy1 (or_empty (output_text reply))) = Return value ->
  TokenCost.calculateTokenCost FINETUNED_MODELS (Mistral.model this) TokenCost.Input
    (or_zero (usage_inputTokens reply)) = Return costIn ->
  TokenCost.calculateTokenCost FINETUNED_MODELS (Mistral.model this) TokenCost.Output
    (or_zero (usage_outputTokens reply)) = Return costOut ->
  Mistral.extractFromText P FINETUNED_MODELS this text schema w
  = (Return {| json := value;
               usage := {| duration := PrimFloat.sub end_ start;
                           inputTokens := or_zero (usage_inputTokens reply);
                           outputTokens := or_zero (usage_outputTokens reply);
                           totalTokens := PrimFloat.add (or_zero (usage_inputTokens reply))
                                            (or_zero (usage_outputTokens reply));
                           inputCost := costIn;
                           outputCost := costOut;
                           totalCost := PrimFloat.add costIn costOut |} |},
     w3, [EvInvoke (e1 ++ e2 ++ e3)]).
Proof.
  intros H1 H2 H3 Hpair Hparse Hin Hout.
  unfold Mistral.extractFromText, Mistral.executeWithRetry.
  apply executeWithRetry_first_try.
  unfold Mistral.extractFromText_operation, bind at 1. rewrite H1.
  unfold bind at 1. rewrite H2. unfold bind at 1. rewrite H3.
  assert (Hp : Mistral.parseJson P (or_empty (output_text reply)) w3
               = (Return value, w3, [])).
  { unfold Mistral.parseJson, try_catch, lift.
    assert (Hne : Mistral.recoverJson (or_empty (output_text reply)) <> []).
    { intros E. now apply mistral_recoverJson_empty_iff in E. }
    destruct (Mistral.recoverJson (or_empty (output_text reply))) as [|x r] eqn:E;
      [contradiction|].
    cbn [falsy]. rewrite <- E, mistral_recoverJson_strategy1, Hparse. reflexivity. }
  unfold bind at 1. rewrite Hp.
  unfold bind at 1, lift at 1. rewrite Hin.
  unfold bind at 1, lift at 1. rewrite Hout.
  unfold ret, mkUsage. cbn [app]. rewrite !app_nil_r. reflexivity.
Qed.

(** X18. The Maritaca provider does not retry: an error thrown by the
    chat completion call, a throttling error included, leaves [ocr] as it
    is, after that one call. *)
Theorem maritaca_ocr_propagates
  (this : Maritaca.MaritacaProvider) (imagePath : jsstring)
  (w w1 w2 : W) (start : float) (error : Error) (e1 e2 : list event) :
  performance_now P w = (Return start, w1, e1) ->
  chat_completions_create P (Maritaca.model this) imagePath w1 = (Throw error, w2, e2) ->
  Maritaca.ocr P FINETUNED_MODELS this imagePath w = (Throw error, w2, e1 ++ e2).
Proof.
  intros H1 H2. unfold Maritaca.ocr, bind at 1. rewrite H1.
  unfold bind at 1. rewrite H2. reflexivity.
Qed.

(** X19. A chat completion without any choice makes [ocr] of the Maritaca
    provider throw a [TypeError], once the clock read and the model priced,
    rather than return an empty text. *)
Theorem maritaca_ocr_no_choice
  (this : Maritaca.MaritacaProvider) (imagePath : jsstring)
  (w w1 w2 w3 : W) (start end_ : float) (response : ChatCompletion)
  (e1 e2 e3 : list event) (costIn costOut : float) :
  performance_now P w = (Return start, w1, e1) ->
  chat_completions_create P (Maritaca.model this) imagePath w1
    = (Return response, w2, e2) ->
  performance_now P w2 = (Return end_, w3, e3) ->
  TokenCost.calculateTokenCost FINETUNED_MODELS (Maritaca.model this) TokenCost.Input
    (or_zero (prompt_tokens response)) = Return costIn ->
  TokenCost.calculateTokenCost FINETUNED_MODELS (Maritaca.model this) TokenCost.Output
    (or_zero (completion_tokens response)) = Return costOut ->
  choices response = [] ->
  exists error,
    fst (fst (Maritaca.ocr P FINETUNED_MODELS this imagePath w)) = Throw error
    /\ name error = js "TypeError".
Proof.
  intros H1 H2 H3 Hin Hout Hnone. exists Maritaca.no_choice. split; [|reflexivity].
  unfold Maritaca.ocr, bind at 1. rewrite H1.
  unfold bind at 1. rewrite H2. unfold bind at 1. rewrite H3.
  unfold bind at 1, lift at 1. rewrite Hin.
  unfold bind at 1, lift at 1. rewrite Hout. rewrite Hnone. reflexivity.
Qed.

End ProviderRuns.

Lemma mistral_extractFromText_parse_failure_witness :
  exists msg tr,
    Mistral.extractFromText Replies.prose_platform [] Sample.mixtral
      (js "Invoice 17, total 40") tt tt
    = (Throw (newError (js "Invalid JSON response: " ++ msg)), tt, tr)
    /\ attempts_of tr = 1%nat
    /\ sleeps_of tr = [].
Proof.
  eapply (@mistral_extractFromText_parse_failure unit jsstring unit
            Replies.prose_platform [] Sample.mixtral (js "Invoice 17, total 40") tt
            tt tt tt tt).
  - reflexivity.
  - reflexivity.
  - reflexivity.
  - left. apply mistral_recoverJson_empty_iff. reflexivity.
Defined.

Lemma pixtral_extractFromText_parse_failure_witness :
  exists msg tr,
    Pixtral.extractFromText Replies.prose_platform [] Replies.pixtral12b
      (js "Invoice 17, total 40") tt tt
    = (Throw (newError (js "Invalid JSON response: " ++ msg)), tt, tr)
    /\ attempts_of tr = 1%nat
    /\ sleeps_of tr = [].
Proof.
  eapply (@pixtral_extractFromText_parse_failure unit jsstring unit
            Replies.prose_platform [] Replies.pixtral12b (js "Invoice 17, total 40") tt
            tt tt tt tt).
  - reflexivity.
  - reflexivity.
  - reflexivity.
  - left. apply pixtral_recoverJson_empty_iff. reflexivity.
Defined.

Lemma mistral_extractFromText_first_try_witness :
  exists r tr,
    Mistral.extractFromText Sample.platform [] Sample.mixtral
      (js "Invoice 17, total 40") tt tt
    = (Return r, tt, tr)
    /\ json r = js "{a:1}".
Proof.
  do 2 eexists. split.
  - eapply (@mistral_extractFromText_first_try unit jsstring unit Sample.platform []
              Sample.mixtral (js "Invoice 17, total 40") tt tt tt tt tt).
    + reflexivity.
    + reflexivity.
    + reflexivity.
    + exists 12%nat, 16%nat. repeat split. lia.
    + reflexivity.
    + vm_compute. reflexivity.
    + vm_compute. reflexivity.
  - reflexivity.
Defined.

Lemma maritaca_ocr_propagates_witness :
  Maritaca.ocr Replies.prose_platform [] Replies.sabia (js "https://example.com/a.png") tt
  = (Throw Sample.throttled, tt, [] ++ []).
Proof.
  apply (@maritaca_ocr_propagates unit jsstring unit Replies.prose_platform []
           Replies.sabia (js "https://example.com/a.png") tt tt tt 0%float
           Sample.throttled [] []).
  - reflexivity.
  - reflexivity.
Defined.

Lemma maritaca_ocr_no_choice_witness :
  exists error,
    fst (fst (Maritaca.ocr Replies.empty_platform [] Replies.sabia
                (js "https://example.com/a.png") tt))
    = Throw error
    /\ name error = js "TypeError".
Proof.
  eapply (@maritaca_ocr_no_choice unit jsstring unit Replies.empty_platform []
            Replies.sabia (js "https://example.com/a.png") tt tt tt tt).
  - reflexivity.
  - reflexivity.
  - reflexivity.
  - vm_compute. reflexivity.
  - vm_compute. reflexivity.
  - reflexivity.
Defined.

(** ** Token costs *)

Section LookupFacts.

Variable A : Type.

Lemma lookup_app (k : jsstring) (a b : list (jsstring * A)) :
  TokenCost.lookup k (a ++ b)
  = match TokenCost.lookup k b with
    | Some v => Some v
    | None => TokenCost.lookup k a
    end.
Proof.
  induction a as [|[k' v] a IH]; simpl.
  - now destruct (TokenCost.lookup k b).
  - rewrite IH. destruct (TokenCost.lookup k b); [reflexivity|].
    now destruct (TokenCost.lookup k a).
Qed.

Lemma lookup_absent (k : jsstring) (l : list (jsstring * A)) :
  ~ In k (List.map fst l) -> TokenCost.lookup k l = None.
Proof.
  induction l as [|[k' v] l IH]; intros H; simpl; [reflexivity|].
  rewrite IH by (intros Hin; apply H; now right).
  destruct (str_eqb k k') eqn:E; [|reflexivity].
  apply str_eqb_eq in E. elim H. left. now subst.
Qed.

Lemma lookup_present (k : jsstring) (l : list (jsstring * A)) :
  In k (List.map fst l) -> exists v, TokenCost.lookup k l = Some v.
Proof.
  induction l as [|[k' v] l IH]; intros H; simpl in *; [contradiction|].
  destruct (TokenCost.lookup k l) as [v'|] eqn:E; [now exists v'|].
  destruct H as [<-|H].
  - rewrite str_eqb_refl. now exists v.
  - destruct (IH H) as (v' & Hv'). discriminate.
Qed.

Lemma lookup_value (k : jsstring) (l : list (jsstring * A)) (v : A) :
  TokenCost.lookup k l = Some v -> In v (List.map snd l).
Proof.
  induction l as [|[k' v'] l IH]; intros H; simpl in *; [discriminate|].
  destruct (TokenCost.lookup k l) as [v''|] eqn:E.
  - injection H as ->. right. now apply IH.
  - destruct (str_eqb k k'); [|discriminate]. injection H as ->. now left.
Qed.

End LookupFacts.

Lemma existsb_str_eqb (x : jsstring) (l : list jsstring) :
  existsb (str_eqb x) l = true <-> In x l.
Proof.
  rewrite existsb_exists. split.
  - intros (y & Hin & E). apply str_eqb_eq in E. now subst.
  - intros H. exists x. split; [assumption | apply str_eqb_refl].
Qed.

Section CostFacts.

Variable FINETUNED_MODELS : list jsstring.

Lemma fineTuneCost_keys :
  List.map fst (TokenCost.fineTuneCost FINETUNED_MODELS) = FINETUNED_MODELS.
Proof.
  unfold TokenCost.fineTuneCost. rewrite map_map. simpl. apply map_id.
Qed.

Lemma fineTuneCost_value (model : jsstring) (info : TokenCost.ModelInfo) :
  TokenCost.lookup model (TokenCost.fineTuneCost FINETUNED_MODELS) = Some info ->
  info = {| TokenCost.input := 3.75; TokenCost.output := 15.0 |}.
Proof.
  intros H. apply lookup_value in H. unfold TokenCost.fineTuneCost in H.
  rewrite map_map in H. simpl in H. apply in_map_iff in H.
  now destruct H as (el & <- & _).
Qed.

(** X20. A model that is neither in the cost table nor fine-tuned (nor a
    property name every object inherits) makes [calculateTokenCost] throw
    [Model '...' is not supported.], for either kind of token and any
    count. *)
Theorem calculateTokenCost_unknown_model
  (model : jsstring) (type : TokenCost.CostType) (tokens : float) :
  ~ In model (List.map fst TokenCost.TOKEN_COST) ->
  ~ In model FINETUNED_MODELS ->
  ~ In model TokenCost.inherited_keys ->
  TokenCost.calculateTokenCost FINETUNED_MODELS model type tokens
  = Throw (newError (js "Model '" ++ model ++ js "' is not supported.")).
Proof.
  intros Htable Hft Hinh. unfold TokenCost.calculateTokenCost, TokenCost.combinedCost.
  rewrite lookup_app, !lookup_absent by (rewrite ?fineTuneCost_keys; assumption).
  destruct (existsb (str_eqb model) TokenCost.inherited_keys) eqn:E; [|reflexivity].
  apply existsb_str_eqb in E. contradiction.
Qed.

(** X21. A fine-tuned model is charged 3.75 per million input tokens and
    15 per million output tokens, whatever the cost table says about a
    model of that name. *)
Theorem calculateTokenCost_fine_tuned (model : jsstring) (tokens : float) :
  In model FINETUNED_MODELS ->
  TokenCost.calculateTokenCost FINETUNED_MODELS model TokenCost.Input tokens
  = Return (PrimFloat.div (PrimFloat.mul 3.75 tokens) 1000000)
  /\ TokenCost.calculateTokenCost FINETUNED_MODELS model TokenCost.Output tokens
     = Return (PrimFloat.div (PrimFloat.mul 15 tokens) 1000000).
Proof.
  intros Hft. unfold TokenCost.calculateTokenCost, TokenCost.combinedCost.
  rewrite lookup_app.
  destruct (@lookup_present _ model (TokenCost.fineTuneCost FINETUNED_MODELS))
    as (info & Hinfo); [now rewrite fineTuneCost_keys|].
  rewrite Hinfo. apply fineTuneCost_value in Hinfo. subst info. split; reflexivity.
Qed.

Lemma table_prices_nothing_for_nothing :
  Forall (fun info =>
            PrimFloat.div (PrimFloat.mul (TokenCost.input info) 0) 1000000 = 0%float
            /\ PrimFloat.div (PrimFloat.mul (TokenCost.output info) 0) 1000000 = 0%float)
    (List.map snd TokenCost.TOKEN_COST).
Proof. unfold TokenCost.TOKEN_COST. simpl. repeat constructor. Qed.

(** X22. No tokens cost nothing: for every model of the cost table and
    every fine-tuned model, zero tokens, which is also what a reply
    without token counts is taken for, are charged zero. *)
Theorem calculateTokenCost_zero_tokens (model : jsstring) (type : TokenCost.CostType) :
  In model (List.map fst TokenCost.TOKEN_COST) \/ In model FINETUNED_MODELS ->
  TokenCost.calculateTokenCost FINETUNED_MODELS model type (or_zero None) = Return 0%float.
Proof.
  intros Hpriced. cbn [or_zero].
  unfold TokenCost.calculateTokenCost, TokenCost.combinedCost. rewrite lookup_app.
  destruct (TokenCost.lookup model (TokenCost.fineTuneCost FINETUNED_MODELS))
    as [info|] eqn:Eft.
  - apply fineTuneCost_value in Eft. subst info. destruct type; reflexivity.
  - destruct Hpriced as [Htable|Hft].
    + destruct (@lookup_present _ model TokenCost.TOKEN_COST Htable) as (info & Hinfo).
      rewrite Hinfo. apply lookup_value in Hinfo.
      pose proof table_prices_nothing_for_nothing as Hall.
      rewrite Forall_forall in Hall. destruct (Hall info Hinfo) as [Hi Ho].
      destruct type; f_equal; assumption.
    + destruct (@lookup_present _ model (TokenCost.fineTuneCost FINETUNED_MODELS))
        as (info & Hinfo); [now rewrite fineTuneCost_keys|].
      congruence.
Qed.

Lemma priced_returns (model : jsstring) (type : TokenCost.CostType) (tokens : float) :
  priced FINETUNED_MODELS model = true <->
  exists cost,
    TokenCost.calculateTokenCost FINETUNED_MODELS model type tokens = Return cost.
Proof.
  unfold priced, TokenCost.calculateTokenCost.
  destruct (TokenCost.lookup model (TokenCost.combinedCost FINETUNED_MODELS)).
  - split; [eauto | reflexivity].
  - destruct (existsb (str_eqb model) TokenCost.inherited_keys).
    + split; [eauto | reflexivity].
    + split; [discriminate | intros (cost & H); discriminate H].
Qed.

End CostFacts.

Lemma listed_in_listings (o : Registry.store) (model : jsstring) :
  Registry.listed o model <-> In model (List.map fst (listings o)).
Proof.
  unfold Registry.listed, listings. split.
  - intros (key & group & Hin & Hm). apply in_map_iff.
    exists (model, (key, group)). split; [reflexivity|].
    apply in_flat_map. exists (key, group). split; [assumption|].
    apply in_map_iff. now exists model.
  - intros H. apply in_map_iff in H. destruct H as ([m [key group]] & <- & H).
    apply in_flat_map in H. destruct H as (entry & Hin & H).
    apply in_map_iff in H. destruct H as (m' & Heq & Hm').
    injection Heq as -> ->. now exists key, group.
Qed.

(** X23. Of the identifiers the registry lists, the cost table prices all
    but nine: the five OCR-only services, [omniai], the two OpenRouter
    Qwen models and [ground-truth]; for these [calculateTokenCost] throws,
    for every other listed identifier it returns. *)
Theorem listed_models_priced
  (model : jsstring) (type : TokenCost.CostType) (tokens : float) :
  Registry.listed Registry.MODEL_PROVIDERS model ->
  ((exists cost,
      TokenCost.calculateTokenCost Registry.FINETUNED_MODELS model type tokens
      = Return cost)
   <-> ~ In model unpriced_listed).
Proof.
  intros Hlisted. rewrite <- priced_returns.
  apply listed_in_listings in Hlisted.
  assert (Hall : forallb
                   (fun m => Bool.eqb (priced Registry.FINETUNED_MODELS m)
                               (negb (existsb (str_eqb m) unpriced_listed)))
                   (List.map fst (listings Registry.MODEL_PROVIDERS)) = true)
    by (vm_compute; reflexivity).
  rewrite forallb_forall in Hall. specialize (Hall model Hlisted).
  apply Bool.eqb_prop in Hall. rewrite Hall, negb_true_iff.
  rewrite <- existsb_str_eqb.
  destruct (existsb (str_eqb model) unpriced_listed); split; congruence.
Qed.

Lemma calculateTokenCost_unknown_model_witness :
  TokenCost.calculateTokenCost [] (js "gpt-5") TokenCost.Input 1000%float
  = Throw (newError (js "Model '" ++ js "gpt-5" ++ js "' is not supported.")).
Proof.
  apply (@calculateTokenCost_unknown_model [] (js "gpt-5") TokenCost.Input 1000%float).
  - intros H. apply existsb_str_eqb in H. vm_compute in H. discriminate H.
  - intros [].
  - intros H. apply existsb_str_eqb in H. vm_compute in H. discriminate H.
Defined.

Lemma calculateTokenCost_fine_tuned_witness :
  TokenCost.calculateTokenCost [js "ft:gpt-4o:acme"; js "gpt-4o"] (js "gpt-4o")
    TokenCost.Input 2000000%float
  = Return (PrimFloat.div (PrimFloat.mul 3.75 2000000) 1000000)
  /\ TokenCost.calculateTokenCost [js "ft:gpt-4o:acme"; js "gpt-4o"] (js "gpt-4o")
       TokenCost.Output 2000000%float
     = Return (PrimFloat.div (PrimFloat.mul 15 2000000) 1000000).
Proof.
  apply (@calculateTokenCost_fine_tuned [js "ft:gpt-4o:acme"; js "gpt-4o"] (js "gpt-4o")
           2000000%float).
  right. left. reflexivity.
Defined.

Lemma calculateTokenCost_zero_tokens_witness :
  TokenCost.calculateTokenCost [] (js "sabia-3") TokenCost.Output (or_zero None)
  = Return 0%float.
Proof.
  apply (@calculateTokenCost_zero_tokens [] (js "sabia-3") TokenCost.Output).
  left. apply existsb_str_eqb. vm_compute. reflexivity.
Defined.

Lemma listed_models_priced_witness :
  (exists cost,
     TokenCost.calculateTokenCost Registry.FINETUNED_MODELS (js "pixtral-12b-v1")
       TokenCost.Input 1000%float
     = Return cost)
  <-> ~ In (js "pixtral-12b-v1") unpriced_listed.
Proof.
  apply (@listed_models_priced (js "pixtral-12b-v1") TokenCost.Input 1000%float).
  apply listedb_listed. vm_compute. reflexivity.
Defined.

Example qwen_openrouter_unpriced :
  TokenCost.calculateTokenCost Registry.FINETUNED_MODELS
    (js "qwen/qwen-2.5-vl-72b-instruct") TokenCost.Input 1000%float
  = Throw (newError (js "Model 'qwen/qwen-2.5-vl-72b-instruct' is not supported.")).
Proof. vm_compute. reflexivity. Qed.

(** ** More on the registry *)

Lemma distinct_NoDup (l : list jsstring) : distinct l = true -> NoDup l.
Proof.
  induction l as [|x l IH]; intros H; [constructor|]. simpl in H.
  apply andb_true_iff in H. destruct H as [Hx Hl]. constructor; [|now apply IH].
  intros Hin. apply existsb_str_eqb in Hin. rewrite Hin in Hx. discriminate.
Qed.

Lemma NoDup_fst_unique {A B} (l : list (A * B)) (a : A) (b1 b2 : B) :
  NoDup (List.map fst l) -> In (a, b1) l -> In (a, b2) l -> b1 = b2.
Proof.
  induction l as [|[a' b'] l IH]; intros Hnd H1 H2; [contradiction|].
  simpl in Hnd. inversion Hnd as [|? ? Hnot Hnd']. subst.
  destruct H1 as [H1|H1], H2 as [H2|H2].
  - congruence.
  - injection H1 as -> ->. elim Hnot. apply in_map_iff. now exists (a, b2).
  - injection H2 as -> ->. elim Hnot. apply in_map_iff. now exists (a, b1).
  - now apply IH.
Qed.

(** X24. No model identifier is listed by two groups of the registry: the
    group, and with it the provider class, of a listed identifier does not
    depend on the order in which the groups are searched. *)
Theorem listed_model_in_one_group
  (model key1 key2 : jsstring) (group1 group2 : Registry.Group) :
  In (key1, group1) Registry.MODEL_PROVIDERS ->
  In (key2, group2) Registry.MODEL_PROVIDERS ->
  In model (Registry.models group1) ->
  In model (Registry.models group2) ->
  key1 = key2 /\ group1 = group2.
Proof.
  intros H1 H2 Hm1 Hm2.
  assert (Hnd : NoDup (List.map fst (listings Registry.MODEL_PROVIDERS)))
    by (apply distinct_NoDup; vm_compute; reflexivity).
  assert (Hin : forall key group,
             In (key, group) Registry.MODEL_PROVIDERS ->
             In model (Registry.models group) ->
             In (model, (key, group)) (listings Registry.MODEL_PROVIDERS)).
  { intros key group Hin Hm. unfold listings. apply in_flat_map.
    exists (key, group). split; [assumption|]. apply in_map_iff. now exists model. }
  pose proof (NoDup_fst_unique _ _ _ _ Hnd (Hin _ _ H1 Hm1) (Hin _ _ H2 Hm2)) as E.
  now injection E as -> ->.
Qed.

Lemma listed_model_in_one_group_witness :
  js "omniai" = js "omniai"
  /\ {| Registry.models := [js "omniai"];
        Registry.provider := Some Registry.OmniAIProvider |}
     = {| Registry.models := [js "omniai"];
          Registry.provider := Some Registry.OmniAIProvider |}.
Proof.
  apply (@listed_model_in_one_group (js "omniai") (js "omniai") (js "omniai")
           {| Registry.models := [js "omniai"];
              Registry.provider := Some Registry.OmniAIProvider |}
           {| Registry.models := [js "omniai"];
              Registry.provider := Some Registry.OmniAIProvider |}).
  - vm_compute. do 11 right. left. reflexivity.
  - vm_compute. do 11 right. left. reflexivity.
  - left. reflexivity.
  - left. reflexivity.
Defined.

Section RegistryHistory.

Variable Provider : Type.
Variable construct : Registry.ProviderClass -> jsstring -> outcome Provider.

Local Abbreviation openaiFt :=
  (js "openaiFt",
   {| Registry.models := Registry.FINETUNED_MODELS;
      Registry.provider := Some Registry.LLMProvider |}).

Lemma store_after_assigned_again (earlier : list jsstring) :
  Registry.store_after construct earlier (Registry.MODEL_PROVIDERS ++ [openaiFt])
  = Registry.MODEL_PROVIDERS ++ [openaiFt].
Proof.
  induction earlier as [|model rest IH]; [reflexivity|].
  cbn [Registry.store_after]. rewrite getModelProvider_store.
  cbn [fst snd]. rewrite assign_openaiFt_again. exact IH.
Qed.

(** X25. The calls of [getModelProvider] share one object, and the first
    call adds the group [openaiFt] to it; later calls leave it as it is,
    with its 22 groups, and the completion of a call does not depend on
    the calls made before. *)
Theorem getModelProvider_history (first : jsstring) (earlier : list jsstring)
  (model : jsstring) :
  Registry.store_after construct (first :: earlier) Registry.MODEL_PROVIDERS
  = Registry.MODEL_PROVIDERS ++ [openaiFt]
  /\ List.length
       (Registry.store_after construct (first :: earlier) Registry.MODEL_PROVIDERS)
     = 22%nat
  /\ fst (Registry.getModelProvider construct
            (Registry.store_after construct (first :: earlier) Registry.MODEL_PROVIDERS)
            model)
     = fst (Registry.getModelProvider construct Registry.MODEL_PROVIDERS model).
Proof.
  assert (H : Registry.store_after construct (first :: earlier) Registry.MODEL_PROVIDERS
              = Registry.MODEL_PROVIDERS ++ [openaiFt]).
  { cbn [Registry.store_after]. rewrite getModelProvider_store.
    cbn [fst snd]. rewrite assign_openaiFt_fresh. apply store_after_assigned_again. }
  split; [exact H|]. split; [rewrite H; reflexivity|].
  rewrite (getModelProvider_completion construct (first :: earlier) model).
  pose proof (getModelProvider_completion construct [] model) as H0.
  cbn [Registry.store_after] in H0. rewrite H0. reflexivity.
Qed.

End RegistryHistory.
